(** * HoldersForm: the token-holder snapshot form

    A shallow embedding of [src/components/HoldersForm.tsx].  The event
    handlers of the component are written in a small monad that threads the
    form state of react-hook-form, records every call the component makes to
    the outside (the network, the caller-supplied setters, the toast and the
    field array), and carries JavaScript exceptions.  The live rows of the
    form are objects in a heap, held by reference: a lookup that waits for
    the network reads, afterwards, what was written to its row
    meanwhile. *)

From Stdlib Require Import ZArith NArith String List Bool Lia.
From stdpp Require Import base option list sets strings pretty.

Import ListNotations.
Local Open Scope list_scope.

(** ** Data *)

(** [DurationType = 'days' | 'weeks' | 'months']. *)
Inductive DurationType := days | weeks | months.

(** [duration?: string | Date]; a [Date] is its time value in milliseconds. *)
Inductive Duration :=
| duration_undefined
| duration_string (s : string)
| duration_Date (time : Z).

(** One element of [FormData['formData']].  The members live in a module so
    that a handler with a parameter called [tokenId] can still read
    [formData.tokenId], as [FormRow.tokenId formData]. *)
Module FormRow.
Record Row := {
  tokenId : string;
  minAmount : string;
  tokenName : string;
  isNFT : bool;
  isDurationSelect : bool;
  durationType : DurationType;
  isCollapsed : bool;
  duration : Duration;
}.
End FormRow.
Export FormRow.

(** A JavaScript array of rows.  [None] is an [undefined] element: reading
    past the end gives [undefined], and an assignment past the end extends
    the array. *)
Abbreviation Rows := (list (option Row)).

(** [arr[index]], for an array of rows or of references to rows. *)
Definition at_index {A} (arr : list (option A)) (index : nat) : option A :=
  mjoin (arr !! index).

(** [arr[index] = value]. *)
Definition set_index {A} (arr : list (option A)) (index : nat) (value : A)
  : list (option A) :=
  if decide (index < length arr) then <[index := Some value]> arr
  else arr ++ replicate (index - length arr) None ++ [Some value].

(** [FormData]. *)
Record FormData := { formData : Rows }.

(** The response of the mirror node for a token.  The declaration
    [types/tokenDetails-response] is not among the sources: the record has
    the two members the form reads and keeps the rest of the JSON object as
    key/value pairs. *)
Record TokenDetails := {
  name : string;
  type : string;
  members : list (string * string);
}.

(** A thrown value: an [Error] object with its [name] and [message]. *)
Record JsError := { error_name : string; message : string }.

(** [new Error(message)]. *)
Definition Error (msg : string) : JsError :=
  {| error_name := "Error"; message := msg |}.

(** The [TypeError] of a property read on [undefined]. *)
Definition TypeError_undefined (property : string) : JsError :=
  {| error_name := "TypeError";
     message := "Cannot read properties of undefined (reading '" +:+ property +:+ "')" |}.

(** [Error.prototype.toString]. *)
Definition toString (e : JsError) : string :=
  if decide (error_name e = "") then message e
  else if decide (message e = "") then error_name e
  else error_name e +:+ ": " +:+ message e.

(** The argument of [setData], typed [any]. *)
Inductive JsAny :=
| any_undefined
| any_string (s : string)
| any_array (elements : list string).

(** ** The outside world *)

(** What [response.json()] settles to. *)
Inductive JsonResult :=
| json_rejects (e : JsError)
| json_resolves (data : TokenDetails).

(** The members of a [Response] the form uses. *)
Record Response := {
  ok : bool;
  status : N;
  json : JsonResult;
}.

(** What [fetch(url)] settles to. *)
Inductive FetchResult :=
| fetch_rejects (e : JsError)
| fetch_resolves (response : Response).

(** A reference to a row object. *)
Abbreviation Ref := nat (only parsing).

(** What react-hook-form keeps for the field array [formData]: [fields],
    the snapshot [useFieldArray] returns (copies of the rows), and the
    live array [getValues().formData], an array of references ([slots])
    to row objects in a [heap].  A handler that holds a reference sees
    what is written to the object after it took the reference. *)
Record FormState := {
  fields : Rows;
  slots : list (option Ref);
  heap : Ref -> Row;
}.

(** The live values: the rows the slots refer to, as they are now. *)
Definition rows_of (objects : Ref -> Row) (refs : list (option Ref)) : Rows :=
  (fun slot : option Ref => objects <$> slot) <$> refs.

Definition values (f : FormState) : Rows := rows_of (heap f) (slots f).

(** A reference no slot holds: the one of a new object. *)
Definition fresh_ref (refs : list (option Ref)) : Ref :=
  S (max_list (omap id refs)).

(** The network, and what happens to the form at the two [await]s of the
    lookup (the user goes on typing): while the request is in flight and
    while the body of the response is read.  The row objects are part of
    the form state, so what happens then reaches the object a pending
    lookup holds. *)
Record World := {
  network : string -> FetchResult;
  in_flight : FormState -> FormState;
  in_parse : FormState -> FormState;
}.

(** The caller-supplied setter properties of [HoldersFormProps]. *)
Inductive Setter := SetFormData | SetData | SetShouldFetch | SetTokenDetailsList.

#[global] Instance Setter_eq_dec : EqDecision Setter.
Proof. solve_decision. Defined.

(** The calls the component makes to functions it does not define. *)
Inductive Call :=
| call_fetch (url : string)
| call_setFormData (rows : Rows)
| call_setData (data : JsAny)
| call_setShouldFetch (shouldFetch : bool)
| call_setTokenDetailsList (list : list TokenDetails)
| call_update (index : nat) (value : Row)
| call_toast_error (text : string)
| call_field_onChange (index : nat)
| call_field_onBlur (index : nat)
| call_setValue (index : nat) (key : string).

(** The data properties of [HoldersFormProps]; the four setters are the
    [call_set...] constructors of [Call]. *)
Record HoldersFormProps := {
  tokenDetailsList : option (list TokenDetails);
  isBalancesFetching : bool;
  progress : Z;
}.

(** The imported modules whose sources are not part of the component:
    the two dictionary entries it reads, [nodeUrl], [isValidTokenId] and
    [formSchema] (as the predicate "the values pass the schema"). *)
Record Dictionary := {
  httpError : string;
  wrongTokenId : string;
}.

Class Imports := {
  dictionary : Dictionary;
  nodeUrl : string;
  isValidTokenId : string -> bool;
  formSchema : list TokenDetails -> Rows -> bool;
}.

(** Assignments to one member of a row. *)
Definition set_tokenId (v : string) (row : Row) : Row :=
  {| tokenId := v; minAmount := minAmount row; tokenName := tokenName row;
     isNFT := isNFT row; isDurationSelect := isDurationSelect row;
     durationType := durationType row; isCollapsed := isCollapsed row;
     duration := duration row |}.

Definition set_tokenName (v : string) (row : Row) : Row :=
  {| tokenId := tokenId row; minAmount := minAmount row; tokenName := v;
     isNFT := isNFT row; isDurationSelect := isDurationSelect row;
     durationType := durationType row; isCollapsed := isCollapsed row;
     duration := duration row |}.

Definition set_isNFT (v : bool) (row : Row) : Row :=
  {| tokenId := tokenId row; minAmount := minAmount row; tokenName := tokenName row;
     isNFT := v; isDurationSelect := isDurationSelect row;
     durationType := durationType row; isCollapsed := isCollapsed row;
     duration := duration row |}.

Definition set_isDurationSelect (v : bool) (row : Row) : Row :=
  {| tokenId := tokenId row; minAmount := minAmount row; tokenName := tokenName row;
     isNFT := isNFT row; isDurationSelect := v;
     durationType := durationType row; isCollapsed := isCollapsed row;
     duration := duration row |}.

Definition set_minAmount (v : string) (row : Row) : Row :=
  {| tokenId := tokenId row; minAmount := v; tokenName := tokenName row;
     isNFT := isNFT row; isDurationSelect := isDurationSelect row;
     durationType := durationType row; isCollapsed := isCollapsed row;
     duration := duration row |}.

Definition set_duration (v : Duration) (row : Row) : Row :=
  {| tokenId := tokenId row; minAmount := minAmount row; tokenName := tokenName row;
     isNFT := isNFT row; isDurationSelect := isDurationSelect row;
     durationType := durationType row; isCollapsed := isCollapsed row;
     duration := v |}.

(** ** What is rendered *)

(** The controls of the time-window filter of a row. *)
Inductive Control :=
| DurationSwitch (checked : bool)
| DurationNumberInput (value : Duration)
| DurationTypeSelect (defaultValue : DurationType)
| DatePicker (selected : Duration).

(** The elements of a row; the panel of the filter is [visible] or
    [hidden] by its class and holds the controls. *)
Inductive Element :=
| TokenIdInput (index : nat)
| TokenNameText (text : string)
| MinAmountInput (index : nat)
| DurationPanel (visible : bool) (controls : list Control).

Inductive SubmitArea :=
| ProgressBar (value : Z)
| SubmitButton (disabled : bool).

(** ** The monad of the handlers *)

Record State := {
  form : FormState;
  calls : list Call;
}.

Inductive Completion (A : Type) :=
| Normal (a : A)
| Throw (e : JsError).
Arguments Normal {A} a.
Arguments Throw {A} e.

Definition M (A : Type) : Type := State -> State * Completion A.

Definition ret {A} (a : A) : M A := fun st => (st, Normal a).

Definition throw {A} (e : JsError) : M A := fun st => (st, Throw e).

Definition bind {A B} (m : M A) (k : A -> M B) : M B :=
  fun st =>
    match m st with
    | (st', Normal a) => k a st'
    | (st', Throw e) => (st', Throw e)
    end.

(** [try { body } catch (error) { handler }]. *)
Definition try_catch {A} (body : M A) (handler : JsError -> M A) : M A :=
  fun st =>
    match body st with
    | (st', Normal a) => (st', Normal a)
    | (st', Throw e) => handler e st'
    end.

Declare Scope js_scope.
Delimit Scope js_scope with js.
Notation "x <- m ;; k" := (bind m (fun x => k))
  (at level 100, m at next level, right associativity) : js_scope.
Notation "m ;;; k" := (bind m (fun _ => k))
  (at level 100, right associativity) : js_scope.
Local Open Scope js_scope.

(** Record a call in the log. *)
Definition call (c : Call) : M unit :=
  fun st => ({| form := form st; calls := calls st ++ [c] |}, Normal tt).

(** Change the form state. *)
Definition modify (f : FormState -> FormState) : M unit :=
  fun st => ({| form := f (form st); calls := calls st |}, Normal tt).

(** [object.key] where [object] may be [undefined]: the member is read
    from the object as it is at the time of the read. *)
Definition member {A} (object : option Ref) (key : string) (get : Row -> A) : M A :=
  fun st =>
    match object with
    | Some o => (st, Normal (get (heap (form st) o)))
    | None => (st, Throw (TypeError_undefined key))
    end.

(** [getValues().formData[index]]: the reference in the slot. *)
Definition getValues_formData_at (index : nat) : M (option Ref) :=
  fun st => (st, Normal (at_index (slots (form st)) index)).

(** The form after [update(index, value)] of [useFieldArray]: a new object
    with the members of [value] is assigned at [index] in the live array,
    and [fields] becomes a snapshot of the result. *)
Definition after_update (f : FormState) (index : nat) (value : Row) : FormState :=
  let o := fresh_ref (slots f) in
  let updated := set_index (slots f) index o in
  let objects := fun r => if decide (r = o) then value else heap f r in
  {| fields := rows_of objects updated; slots := updated; heap := objects |}.

(** The form after a write to a member of the live row of [index]: the
    object in the slot is changed in place; on a missing row nothing is
    changed. *)
Definition written (f : FormState) (index : nat) (change : Row -> Row) : FormState :=
  match at_index (slots f) index with
  | Some o =>
      {| fields := fields f;
         slots := slots f;
         heap := fun r => if decide (r = o) then change (heap f r) else heap f r |}
  | None => f
  end.

Section HoldersForm.
Context `{Imports}.
Variable props : HoldersFormProps.
Variable world : World.

(** [await fetch(url)]: the request is sent, the form lives on while it is
    awaited, and the promise settles. *)
Definition fetch (url : string) : M Response :=
  call (call_fetch url);;;
  modify (in_flight world);;;
  match network world url with
  | fetch_rejects e => throw e
  | fetch_resolves response => ret response
  end.

(** [await response.json()]. *)
Definition response_json (response : Response) : M TokenDetails :=
  modify (in_parse world);;;
  match json response with
  | json_rejects e => throw e
  | json_resolves data => ret data
  end.

(** [update(index, value)] of [useFieldArray]. *)
Definition update (index : nat) (value : Row) : M unit :=
  call (call_update index value);;;
  modify (fun f => after_update f index value).

Definition toast_error (text : string) : M unit :=
  call (call_toast_error text).

Definition setTokenDetailsList (l : list TokenDetails) : M unit :=
  call (call_setTokenDetailsList l).

Definition setFormData (rows : Rows) : M unit := call (call_setFormData rows).
Definition setData (data : JsAny) : M unit := call (call_setData data).
Definition setShouldFetch (shouldFetch : bool) : M unit :=
  call (call_setShouldFetch shouldFetch).

(** [fetchTokenData]; [formData] is a reference to the row object
    ([undefined] is [None]), and its members are read after the awaits. *)
Definition fetchTokenData (url : string) (index : nat) (formData : option Ref)
  : M (option TokenDetails) :=
  try_catch
    (response <- fetch url;;
     if negb (ok response) then
       throw (Error (httpError dictionary +:+ " " +:+ pretty (status response)))
     else
       data <- response_json response;;
       setTokenDetailsList
         (match tokenDetailsList props with
          | Some l => l ++ [data]
          | None => [data]
          end);;;
       v_tokenId <- member formData "tokenId" tokenId;;
       v_minAmount <- member formData "minAmount" minAmount;;
       v_isDurationSelect <- member formData "isDurationSelect" isDurationSelect;;
       v_duration <- member formData "duration" duration;;
       v_isCollapsed <- member formData "isCollapsed" isCollapsed;;
       v_durationType <- member formData "durationType" durationType;;
       update index
         {| tokenId := v_tokenId;
            minAmount := v_minAmount;
            tokenName := name data;
            isNFT := String.eqb (type data) "NON_FUNGIBLE_UNIQUE";
            isDurationSelect := v_isDurationSelect;
            duration := v_duration;
            isCollapsed := v_isCollapsed;
            durationType := v_durationType |};;;
       ret (Some data))
    (fun error =>
       toast_error (toString error);;;
       v_tokenId <- member formData "tokenId" tokenId;;
       v_minAmount <- member formData "minAmount" minAmount;;
       v_isNFT <- member formData "isNFT" isNFT;;
       v_isDurationSelect <- member formData "isDurationSelect" isDurationSelect;;
       v_duration <- member formData "duration" duration;;
       v_isCollapsed <- member formData "isCollapsed" isCollapsed;;
       v_durationType <- member formData "durationType" durationType;;
       update index
         {| tokenId := v_tokenId;
            minAmount := v_minAmount;
            tokenName := wrongTokenId dictionary;
            isNFT := v_isNFT;
            isDurationSelect := v_isDurationSelect;
            duration := v_duration;
            isCollapsed := v_isCollapsed;
            durationType := v_durationType |};;;
       ret None).

(** [onSubmit]. *)
Definition onSubmit (data : FormData) : M unit :=
  setFormData (formData data);;;
  setData (any_array []);;;
  setShouldFetch true.

(** The [try] block of [handleTokenIdBlur]. *)
Definition handleTokenIdBlur_try (url : string) (index : nat) : M unit :=
  formData <- getValues_formData_at index;;
  fetchTokenData url index formData;;;
  ret tt.

(** [handleTokenIdBlur]; a string is truthy when it is not empty. *)
Definition handleTokenIdBlur (tokenId : string) (index : nat) : M unit :=
  if negb (String.eqb tokenId "") && isValidTokenId tokenId then
    let url := nodeUrl +:+ "/api/v1/tokens/" +:+ tokenId in
    try_catch
      (handleTokenIdBlur_try url index)
      (fun error => toast_error (toString error))
  else ret tt.

(** [handleTokenIdChange]. *)
Definition handleTokenIdChange (tokenId : string) (index : nat) : M unit :=
  if String.eqb tokenId "" && negb (isValidTokenId tokenId) then
    formData <- getValues_formData_at index;;
    v_tokenId <- member formData "tokenId" FormRow.tokenId;;
    v_minAmount <- member formData "minAmount" minAmount;;
    v_isNFT <- member formData "isNFT" isNFT;;
    v_isDurationSelect <- member formData "isDurationSelect" isDurationSelect;;
    v_duration <- member formData "duration" duration;;
    v_isCollapsed <- member formData "isCollapsed" isCollapsed;;
    v_durationType <- member formData "durationType" durationType;;
    update index
      {| FormRow.tokenId := v_tokenId;
         minAmount := v_minAmount;
         tokenName := "";
         isNFT := v_isNFT;
         isDurationSelect := v_isDurationSelect;
         duration := v_duration;
         isCollapsed := v_isCollapsed;
         durationType := v_durationType |}
  else ret tt.

(** *** The wiring of the handlers in the JSX *)

(** [field.onChange] of a controlled input and [setValue(path, value)]:
    react-hook-form writes the member of the live row object.  Both are
    used on rendered rows only; on a missing row the model changes
    nothing. *)
Definition write_member (index : nat) (change : Row -> Row) : M unit :=
  modify (fun f => written f index change).

Definition field_onChange (index : nat) (change : Row -> Row) : M unit :=
  call (call_field_onChange index);;;
  write_member index change.

Definition field_onBlur (index : nat) : M unit :=
  call (call_field_onBlur index).

Definition setValue (index : nat) (key : string) (change : Row -> Row) : M unit :=
  call (call_setValue index key);;;
  write_member index change.

(** [handleSubmit(onSubmit)]: the resolver checks the live values against
    [formSchema(tokenDetailsList || [])] and, being [raw], hands the
    values themselves to the callback when they pass. *)
Definition handleSubmit (onValid : FormData -> M unit) : M unit :=
  fun st =>
    if formSchema (default [] (tokenDetailsList props)) (values (form st))
    then onValid {| formData := values (form st) |} st
    else (st, Normal tt).

(** The events of the rendered form. *)
Inductive UiEvent :=
| tokenId_onChange (index : nat) (value : string)
| tokenId_onBlur (index : nat) (value : string)
| field_input (index : nat) (change : Row -> Row)
| switch_onCheckedChange (index : nat) (newCheckedState : bool)
| form_onSubmit.

Definition dispatch (event : UiEvent) : M unit :=
  match event with
  | tokenId_onChange index value =>
      field_onChange index (set_tokenId value);;;
      handleTokenIdChange value index
  | tokenId_onBlur index value =>
      field_onBlur index;;;
      handleTokenIdBlur value index
  | field_input index change =>
      field_onChange index change
  | switch_onCheckedChange index newCheckedState =>
      setValue index "isDurationSelect" (set_isDurationSelect newCheckedState);;;
      setValue index "duration" (set_duration (duration_string ""))
  | form_onSubmit =>
      handleSubmit onSubmit
  end.

(** *** Rendering *)

(** The row of index [index]: the token-id input with the token name
    under it, the minimum-amount input and, for a non-fungible token, the
    panel of the time-window filter. *)
Definition render_row (f : FormState) (index : nat) (field : Row)
  : Completion (list Element) :=
  let inputs :=
    [TokenIdInput index]
      ++ (if String.eqb (tokenName field) "" then [] else [TokenNameText (tokenName field)])
      ++ [MinAmountInput index] in
  if isNFT field then
    match at_index (values f) index with
    | None => Throw (TypeError_undefined "isCollapsed")
    | Some value =>
        Normal
          (inputs ++
           [DurationPanel (isCollapsed value)
              (DurationSwitch (isDurationSelect value)
               :: if isDurationSelect value
                  then [DurationNumberInput (duration value);
                        DurationTypeSelect (durationType value)]
                  else [DatePicker (duration value)])])
    end
  else Normal inputs.

(** [fields.map((field, index) => ...)], from [index] on. *)
Fixpoint render_rows (f : FormState) (index : nat) (rest : Rows)
  : Completion (list (list Element)) :=
  match rest with
  | [] => Normal []
  | None :: _ => Throw (TypeError_undefined "id")
  | Some field :: rest' =>
      match render_row f index field with
      | Throw e => Throw e
      | Normal row =>
          match render_rows f (S index) rest' with
          | Throw e => Throw e
          | Normal rows => Normal (row :: rows)
          end
      end
  end.

(** The foot of the form. *)
Definition render_submit : SubmitArea :=
  if isBalancesFetching props then ProgressBar (progress props)
  else SubmitButton (isBalancesFetching props).

Definition render (f : FormState) : Completion (list (list Element) * SubmitArea) :=
  match render_rows f 0 (fields f) with
  | Throw e => Throw e
  | Normal rows => Normal (rows, render_submit)
  end.
End HoldersForm.

(** ** Observations on a run *)

(** The URLs requested, the rows handed to [update], the texts toasted and
    the lists handed to [setTokenDetailsList], in the order of the calls. *)
Definition fetches (cs : list Call) : list string :=
  omap (fun c => match c with call_fetch url => Some url | _ => None end) cs.

Definition updates (cs : list Call) : list (nat * Row) :=
  omap (fun c => match c with call_update index value => Some (index, value) | _ => None end) cs.

Definition toasts (cs : list Call) : list string :=
  omap (fun c => match c with call_toast_error text => Some text | _ => None end) cs.

Definition tokenDetailsLists (cs : list Call) : list (list TokenDetails) :=
  omap (fun c => match c with call_setTokenDetailsList l => Some l | _ => None end) cs.

(** The caller-supplied setter a call goes to, if any. *)
Definition setter_of (c : Call) : option Setter :=
  match c with
  | call_setFormData _ => Some SetFormData
  | call_setData _ => Some SetData
  | call_setShouldFetch _ => Some SetShouldFetch
  | call_setTokenDetailsList _ => Some SetTokenDetailsList
  | _ => None
  end.

Definition setters (cs : list Call) : list Setter := omap setter_of cs.

(** The calls of a handler started on the form [f] with an empty log. *)
Definition calls_made {A} (m : M A) (f : FormState) : list Call :=
  calls (fst (m {| form := f; calls := [] |})).

(** The form when the lookup of [url] has settled. *)
Definition awaited (world : World) (url : string) (f : FormState) : FormState :=
  match network world url with
  | fetch_rejects _ => in_flight world f
  | fetch_resolves response =>
      if ok response then in_parse world (in_flight world f) else in_flight world f
  end.

(** The row object [o] when the lookup of [url] has settled. *)
Definition settled_row (world : World) (url : string) (f : FormState) (o : Ref) : Row :=
  heap (awaited world url f) o.

(** The error a lookup fails with: the rejection of [fetch], the
    [Error] thrown for a response that is not ok, or the rejection of
    [response.json()]. *)
Definition lookup_failure `{Imports} (r : FetchResult) : option JsError :=
  match r with
  | fetch_rejects e => Some e
  | fetch_resolves response =>
      if ok response then
        match json response with
        | json_rejects e => Some e
        | json_resolves _ => None
        end
      else Some (Error (httpError dictionary +:+ " " +:+ pretty (status response)))
  end.

(** The token details a lookup succeeds with. *)
Definition lookup_success (r : FetchResult) : option TokenDetails :=
  match r with
  | fetch_rejects _ => None
  | fetch_resolves response =>
      if ok response then
        match json response with
        | json_rejects _ => None
        | json_resolves data => Some data
        end
      else None
  end.

(** The row [fetchTokenData] writes after a successful and after a failed
    lookup. *)
Definition enriched (data : TokenDetails) (row : Row) : Row :=
  set_isNFT (String.eqb (type data) "NON_FUNGIBLE_UNIQUE") (set_tokenName (name data) row).

Definition flagged `{Imports} (row : Row) : Row :=
  set_tokenName (wrongTokenId dictionary) row.

(** The list [fetchTokenData] hands to [setTokenDetailsList]. *)
Definition extended (props : HoldersFormProps) (data : TokenDetails) : list TokenDetails :=
  match tokenDetailsList props with
  | Some l => l ++ [data]
  | None => [data]
  end.

(** A parent that keeps the list in a state variable renders the form
    again with the last list it was handed. *)
Definition rerender (props : HoldersFormProps) (cs : list Call) : HoldersFormProps :=
  {| tokenDetailsList :=
       match last (tokenDetailsLists cs) with
       | Some l => Some l
       | None => tokenDetailsList props
       end;
     isBalancesFetching := isBalancesFetching props;
     progress := progress props |}.

(** The inputs and the filter controls among the elements of a row. *)
Definition is_input (e : Element) : bool :=
  match e with
  | TokenIdInput _ | MinAmountInput _ => true
  | TokenNameText _ | DurationPanel _ _ => false
  end.

Definition filter_controls (es : list Element) : list Control :=
  es ≫= (fun e => match e with DurationPanel _ controls => controls | _ => [] end).

(** "The caller-supplied setters the form calls are exactly [n]": a list
    of [n] distinct setters holds every setter some run of a handler calls,
    and each of them is called in some run. *)
Definition setters_called (n : nat) : Prop :=
  exists l : list Setter,
    NoDup l /\ length l = n /\
    (forall (I : Imports) props world event f s,
        s ∈ setters (calls_made (dispatch props world event) f) -> s ∈ l) /\
    (forall s, s ∈ l ->
        exists (I : Imports) props world event f,
          s ∈ setters (calls_made (dispatch props world event) f)).

(** ** A concrete form *)

Definition example_isValidTokenId (s : string) : bool :=
  String.prefix "0.0." s && negb (String.eqb s "0.0.").

Definition example_formSchema (known : list TokenDetails) (rows : Rows) : bool :=
  forallb (fun r => match r with
                    | Some row => example_isValidTokenId (tokenId row)
                                  && negb (String.eqb (minAmount row) "")
                    | None => false
                    end) rows.

Definition example_imports : Imports :=
  {| dictionary := {| httpError := "HTTP error! status:"; wrongTokenId := "Wrong token ID" |};
     nodeUrl := "https://mainnet-public.mirrornode.hedera.com";
     isValidTokenId := example_isValidTokenId;
     formSchema := example_formSchema |}.

Definition example_row : Row :=
  {| tokenId := "0.0.1234"; minAmount := "5"; tokenName := ""; isNFT := false;
     isDurationSelect := false; durationType := days; isCollapsed := false;
     duration := duration_string "" |}.

Definition example_form : FormState :=
  {| fields := [Some example_row]; slots := [Some 0]; heap := fun _ => example_row |}.

Definition example_state : State := {| form := example_form; calls := [] |}.

Definition example_props : HoldersFormProps :=
  {| tokenDetailsList := None; isBalancesFetching := false; progress := 0 |}.

Definition example_nft : TokenDetails :=
  {| name := "Hash Monkeys"; type := "NON_FUNGIBLE_UNIQUE"; members := [("token_id", "0.0.1234")] |}.

Definition example_url : string :=
  "https://mainnet-public.mirrornode.hedera.com/api/v1/tokens/0.0.1234".

(** A network that knows the token, and one that answers 404. *)
Definition example_world : World :=
  {| network := fun _ => fetch_resolves {| ok := true; status := 200; json := json_resolves example_nft |};
     in_flight := fun f => f;
     in_parse := fun f => f |}.

Definition example_world_404 : World :=
  {| network := fun _ =>
       fetch_resolves {| ok := false; status := 404;
                         json := json_rejects {| error_name := "SyntaxError"; message := "Unexpected end of JSON input" |} |};
     in_flight := fun f => f;
     in_parse := fun f => f |}.

(** ** The form over time *)

(** [defaultValues] of [useZodForm]: one empty row. *)
Definition default_row : Row :=
  {| tokenId := ""; minAmount := ""; tokenName := ""; isNFT := false;
     isDurationSelect := false; duration := duration_string "";
     isCollapsed := false; durationType := days |}.

Definition defaultValues : FormData := {| formData := [Some default_row] |}.

(** The form when it is mounted: [fields] and the values are the default
    values, and nothing has been called. *)
Definition initial_form : FormState :=
  {| fields := formData defaultValues;
     slots := [Some 0];
     heap := fun _ => default_row |}.

Definition initial_state : State := {| form := initial_form; calls := [] |}.

(** A session: the events of the form one after the other, each with the
    world it meets.  A handler that throws ends alone; the next event is
    handled all the same. *)
Definition session `{Imports} (props : HoldersFormProps)
    (events : list (World * UiEvent)) (st : State) : State :=
  foldl (fun st we => fst (dispatch props (fst we) (snd we) st)) st events.

(** A form of [n] rows: [fields] and the values have [n] elements, none of
    them [undefined]. *)
Definition well_formed (n : nat) (f : FormState) : Prop :=
  length (fields f) = n /\ length (values f) = n
  /\ Forall is_Some (fields f) /\ Forall is_Some (values f).

(** A world in which whatever happens to the form during a lookup keeps
    its rows. *)
Definition keeps_rows (world : World) : Prop :=
  forall n f, well_formed n f ->
    well_formed n (in_flight world f) /\ well_formed n (in_parse world f).

(** The row [fetchTokenData] writes, by the outcome of the lookup. *)
Definition looked_up `{Imports} (r : FetchResult) (row : Row) : Row :=
  match lookup_success r with
  | Some data => enriched data row
  | None => flagged row
  end.

(** The controls the filter panel shows for a live row. *)
Definition controls_of (value : Row) : list Control :=
  DurationSwitch (isDurationSelect value)
  :: if isDurationSelect value
     then [DurationNumberInput (duration value); DurationTypeSelect (durationType value)]
     else [DatePicker (duration value)].

Definition example_nft_row : Row :=
  {| tokenId := "0.0.1234"; minAmount := "1"; tokenName := "Hash Monkeys"; isNFT := true;
     isDurationSelect := false; durationType := days; isCollapsed := true;
     duration := duration_string "" |}.

Definition example_nft_form : FormState :=
  {| fields := [Some example_nft_row]; slots := [Some 0]; heap := fun _ => example_nft_row |}.

(** The network that knows the token, with a user who types 9 into the
    minimum-amount input of the first row while the request is in
    flight. *)
Definition example_world_typing : World :=
  {| network := network example_world;
     in_flight := fun f =>
       form (fst (dispatch (H := example_imports) example_props example_world
                    (field_input 0 (set_minAmount "9")) {| form := f; calls := [] |}));
     in_parse := fun f => f |}.

(** A network that cannot be reached. *)
Definition example_world_offline : World :=
  {| network := fun _ => fetch_rejects {| error_name := "TypeError"; message := "Failed to fetch" |};
     in_flight := fun f => f;
     in_parse := fun f => f |}.

(** * Properties *)

(** ** Arrays *)

Section Arrays.
Context {A : Type}.
Implicit Types (arr : list (option A)) (index j : nat) (value : A).

Lemma at_index_set_index arr index value :
  at_index (set_index arr index value) index = Some value.
Proof.
  unfold at_index, set_index.
  destruct (decide (index < length arr)) as [Hlt | Hge].
  - by rewrite list_lookup_insert_eq.
  - rewrite lookup_app_r by lia.
    rewrite lookup_app_r by (rewrite length_replicate; lia).
    rewrite length_replicate.
    by replace (index - length arr - (index - length arr)) with 0 by lia.
Qed.

Lemma at_index_Some_lt arr index value :
  at_index arr index = Some value -> index < length arr.
Proof.
  unfold at_index. intros Hrow.
  destruct (arr !! index) as [slot |] eqn:Hslot; [| done].
  by apply lookup_lt_Some in Hslot.
Qed.

Lemma at_index_lookup arr index value :
  at_index arr index = Some value <-> arr !! index = Some (Some value).
Proof.
  unfold at_index. destruct (arr !! index) as [[r |] |]; cbn; naive_solver.
Qed.

Lemma set_index_in_range arr index value :
  index < length arr -> set_index arr index value = <[index := Some value]> arr.
Proof. intros Hlt. unfold set_index. by destruct (decide (index < length arr)). Qed.

Lemma at_index_set_index_ne arr index j value :
  j <> index -> at_index (set_index arr index value) j = at_index arr j.
Proof.
  intros Hne. unfold at_index, set_index.
  destruct (decide (index < length arr)) as [Hlt | Hge].
  - by rewrite list_lookup_insert_ne.
  - destruct (decide (j < length arr)) as [Hj | Hj].
    + by rewrite lookup_app_l.
    + rewrite (lookup_ge_None_2 arr j) by lia.
      rewrite lookup_app_r by lia.
      destruct (decide (j - length arr < index - length arr)) as [Hk | Hk].
      * rewrite lookup_app_l by (by rewrite length_replicate).
        by rewrite lookup_replicate_2.
      * rewrite lookup_app_r by (rewrite length_replicate; lia).
        rewrite length_replicate.
        destruct (j - length arr - (index - length arr)) as [| k] eqn:Hk'; [lia | done].
Qed.

Lemma length_set_index arr index value :
  length (set_index arr index value) = max (length arr) (S index).
Proof.
  unfold set_index. destruct (decide (index < length arr)).
  - rewrite length_insert. lia.
  - rewrite !length_app, length_replicate. cbn. lia.
Qed.

Lemma Forall_is_Some_set_index arr index value :
  index < length arr -> Forall is_Some arr -> Forall is_Some (set_index arr index value).
Proof.
  intros Hlt Hall. rewrite set_index_in_range by done.
  apply Forall_insert; [done | by eexists].
Qed.
End Arrays.

(** ** The row objects *)

Lemma length_values (f : FormState) : length (values f) = length (slots f).
Proof. apply length_fmap. Qed.

Lemma at_index_rows_of objects (refs : list (option Ref)) index :
  at_index (rows_of objects refs) index = objects <$> at_index refs index.
Proof.
  unfold at_index, rows_of. rewrite list_lookup_fmap.
  by destruct (refs !! index) as [[o |] |].
Qed.

(** The live row of a slot is the object the slot refers to. *)
Lemma at_index_values (f : FormState) index :
  at_index (values f) index = heap f <$> at_index (slots f) index.
Proof. apply at_index_rows_of. Qed.

Lemma at_index_values_Some (f : FormState) index row :
  at_index (values f) index = Some row ->
  exists o, at_index (slots f) index = Some o /\ heap f o = row.
Proof.
  rewrite at_index_values. destruct (at_index (slots f) index) as [o |]; [| done].
  intros [= <-]. by exists o.
Qed.

Lemma at_index_values_None (f : FormState) index :
  at_index (values f) index = None -> at_index (slots f) index = None.
Proof. rewrite at_index_values. by destruct (at_index (slots f) index). Qed.

Lemma Forall_is_Some_rows_of objects (refs : list (option Ref)) :
  Forall is_Some (rows_of objects refs) <-> Forall is_Some refs.
Proof.
  unfold rows_of. rewrite Forall_fmap. apply Forall_iff. intros [o |]; cbn.
  - split; intros _; by eexists.
  - split; intros [x Hx]; discriminate.
Qed.

(** A new object is no object of the array. *)
Lemma fresh_ref_above (refs : list (option Ref)) index o :
  at_index refs index = Some o -> o < fresh_ref refs.
Proof.
  intros Hslot%at_index_lookup. unfold fresh_ref.
  assert (Hin : o ∈ omap id refs).
  { apply list_elem_of_omap. exists (Some o). split; [| done].
    by eapply list_elem_of_lookup_2. }
  pose proof (max_list_elem_of_le _ _ Hin). lia.
Qed.

Lemma rows_of_fresh objects (refs : list (option Ref)) value :
  rows_of (fun r => if decide (r = fresh_ref refs) then value else objects r) refs
  = rows_of objects refs.
Proof.
  apply list_eq. intros i. unfold rows_of. rewrite !list_lookup_fmap.
  destruct (refs !! i) as [[o |] |] eqn:Hslot; cbn; [| done | done].
  assert (o < fresh_ref refs) by (by apply (fresh_ref_above refs i), at_index_lookup).
  by destruct (decide (o = fresh_ref refs)); [lia |].
Qed.

Lemma rows_of_set_index objects (refs : list (option Ref)) index o :
  rows_of objects (set_index refs index o)
  = set_index (rows_of objects refs) index (objects o).
Proof.
  unfold set_index.
  replace (length (rows_of objects refs)) with (length refs)
    by (symmetry; apply length_fmap).
  destruct (decide (index < length refs)); unfold rows_of.
  - by rewrite list_fmap_insert.
  - by rewrite !fmap_app, fmap_replicate.
Qed.

(** [update] assigns the value in the live values, and [fields] becomes
    the live values. *)
Lemma values_after_update (f : FormState) index value :
  values (after_update f index value) = set_index (values f) index value.
Proof.
  unfold values, after_update. cbn [slots heap].
  rewrite rows_of_set_index, rows_of_fresh.
  by destruct (decide (fresh_ref (slots f) = fresh_ref (slots f))).
Qed.

Lemma fields_after_update (f : FormState) index value :
  fields (after_update f index value) = set_index (values f) index value.
Proof. rewrite <- values_after_update. reflexivity. Qed.

Lemma at_index_after_update (f : FormState) (index : nat) (value : Row) :
  at_index (values (after_update f index value)) index = Some value
  /\ at_index (fields (after_update f index value)) index = Some value.
Proof.
  rewrite values_after_update, fields_after_update. split; apply at_index_set_index.
Qed.

(** A write to a member of the live row of [index]. *)
Lemma at_index_values_written (f : FormState) index change :
  at_index (values (written f index change)) index = change <$> at_index (values f) index.
Proof.
  rewrite !at_index_values. unfold written.
  destruct (at_index (slots f) index) as [o |] eqn:Hslot; cbn; rewrite Hslot; cbn; [| done].
  by destruct (decide (o = o)).
Qed.

Lemma slots_written (f : FormState) index change :
  slots (written f index change) = slots f.
Proof. unfold written. by destruct (at_index (slots f) index). Qed.

Lemma fields_written (f : FormState) index change :
  fields (written f index change) = fields f.
Proof. unfold written. by destruct (at_index (slots f) index). Qed.


(** ** The lookup *)

Section Lookup.
Context `{Imports}.
Variable props : HoldersFormProps.
Variable world : World.

(** A lookup fails or succeeds, never both. *)
Lemma lookup_failure_or_success (r : FetchResult) :
  (exists error, lookup_failure r = Some error /\ lookup_success r = None)
  \/ (exists data, lookup_success r = Some data /\ lookup_failure r = None).
Proof.
  destruct r as [e | [[] st [e | data]]]; cbn; eauto.
Qed.

(** The whole run of [fetchTokenData] on a row object, after a failed
    lookup: the row it writes is made from the object as the awaits left
    it. *)
Lemma fetchTokenData_failure url index (o : Ref) st error :
  lookup_failure (network world url) = Some error ->
  fetchTokenData props world url index (Some o) st =
    ({| form := after_update (awaited world url (form st)) index
                  (flagged (settled_row world url (form st) o));
        calls := calls st ++ [call_fetch url;
                              call_toast_error (toString error);
                              call_update index
                                (flagged (settled_row world url (form st) o))] |},
     Normal None).
Proof.
  intros Hfail.
  unfold fetchTokenData, try_catch, fetch, response_json, update, member, settled_row,
    awaited, bind, call, modify; cbn.
  destruct (network world url) as [e | [[] code [e | data]]]; cbn in *;
    try discriminate; injection Hfail as <-; cbn;
    by rewrite <- !app_assoc.
Qed.

(** The whole run of [fetchTokenData] on a row object, after a successful
    lookup. *)
Lemma fetchTokenData_success url index (o : Ref) st data :
  lookup_success (network world url) = Some data ->
  fetchTokenData props world url index (Some o) st =
    ({| form := after_update (awaited world url (form st)) index
                  (enriched data (settled_row world url (form st) o));
        calls := calls st ++ [call_fetch url;
                              call_setTokenDetailsList (extended props data);
                              call_update index
                                (enriched data (settled_row world url (form st) o))] |},
     Normal (Some data)).
Proof.
  intros Hok.
  unfold fetchTokenData, try_catch, fetch, response_json, update, member, settled_row,
    awaited, bind, call, modify; cbn.
  destruct (network world url) as [e | [[] code [e | d]]]; cbn in *;
    try discriminate; injection Hok as <-; cbn;
    by rewrite <- !app_assoc.
Qed.
End Lookup.

(** ** Logs *)

Lemma fetches_app (cs cs' : list Call) : fetches (cs ++ cs') = fetches cs ++ fetches cs'.
Proof. apply omap_app. Qed.

Lemma updates_app (cs cs' : list Call) : updates (cs ++ cs') = updates cs ++ updates cs'.
Proof. apply omap_app. Qed.

Lemma tokenDetailsLists_app (cs cs' : list Call) :
  tokenDetailsLists (cs ++ cs') = tokenDetailsLists cs ++ tokenDetailsLists cs'.
Proof. apply omap_app. Qed.

(** ** Submitting *)

(** [onSubmit] makes its three calls, whatever the data. *)
Lemma onSubmit_calls (data : FormData) (st : State) :
  onSubmit data st =
    ({| form := form st;
        calls := calls st ++ [call_setFormData (formData data);
                              call_setData (any_array []);
                              call_setShouldFetch true] |},
     Normal tt).
Proof.
  unfold onSubmit, setFormData, setData, setShouldFetch, bind, call; cbn.
  by rewrite <- !app_assoc.
Qed.

(** C1: when the submitted values pass the schema, the form calls
    [setFormData] with exactly these values, then [setData] with the empty
    array, then [setShouldFetch] with [true], and nothing else. *)
Theorem submit_hands_data_to_callbacks `{Imports} props (st : State) :
  formSchema (default [] (tokenDetailsList props)) (values (form st)) = true ->
  handleSubmit props onSubmit st =
    ({| form := form st;
        calls := calls st ++ [call_setFormData (values (form st));
                              call_setData (any_array []);
                              call_setShouldFetch true] |},
     Normal tt).
Proof.
  intros Hvalid. unfold handleSubmit. rewrite Hvalid. apply onSubmit_calls.
Qed.

Lemma submit_hands_data_to_callbacks_witness :
  handleSubmit (H := example_imports) example_props onSubmit example_state =
    ({| form := example_form;
        calls := [call_setFormData [Some example_row];
                  call_setData (any_array []);
                  call_setShouldFetch true] |},
     Normal tt).
Proof.
  apply (@submit_hands_data_to_callbacks example_imports example_props example_state).
  reflexivity.
Defined.

(** ** The metadata lookup *)

(** C2: a failed lookup (the response is not ok, or [fetch] or the JSON
    parse rejects) ends in a toast of the error and in an update of the row
    at [index] whose [tokenName] is the [wrongTokenId] entry of the
    dictionary; the row then reads so in [fields] and in the values. *)
Theorem failed_lookup_is_surfaced `{Imports} props world url index (formData : Ref)
    st error :
  lookup_failure (network world url) = Some error ->
  exists st' row',
    fetchTokenData props world url index (Some formData) st = (st', Normal None)
    /\ calls st' = calls st ++ [call_fetch url;
                                call_toast_error (toString error);
                                call_update index row']
    /\ at_index (fields (form st')) index = Some row'
    /\ at_index (values (form st')) index = Some row'
    /\ tokenName row' = wrongTokenId dictionary.
Proof.
  intros Hfail.
  eexists _, (flagged (settled_row world url (form st) formData)).
  split; [by apply fetchTokenData_failure |].
  cbn [calls form]. repeat split; apply at_index_after_update.
Qed.

Lemma failed_lookup_is_surfaced_witness :
  exists st' row',
    fetchTokenData (H := example_imports) example_props example_world_404
      example_url 0 (Some 0) example_state = (st', Normal None)
    /\ calls st' = calls example_state
                   ++ [call_fetch example_url;
                       call_toast_error (toString (Error "HTTP error! status: 404"));
                       call_update 0 row']
    /\ at_index (fields (form st')) 0 = Some row'
    /\ at_index (values (form st')) 0 = Some row'
    /\ tokenName row' = "Wrong token ID".
Proof.
  apply (@failed_lookup_is_surfaced example_imports example_props example_world_404
           example_url 0 0 example_state (Error "HTTP error! status: 404")).
  reflexivity.
Defined.

(** C3: a successful lookup ends in an update of the row at [index] whose
    [tokenName] is the [name] of the response and whose [isNFT] flag is
    true exactly when the [type] of the response is
    ['NON_FUNGIBLE_UNIQUE']. *)
Theorem successful_lookup_enriches_row `{Imports} props world url index
    (formData : Ref) st data :
  lookup_success (network world url) = Some data ->
  exists st' row',
    fetchTokenData props world url index (Some formData) st = (st', Normal (Some data))
    /\ updates (calls st') = updates (calls st) ++ [(index, row')]
    /\ at_index (fields (form st')) index = Some row'
    /\ at_index (values (form st')) index = Some row'
    /\ tokenName row' = name data
    /\ (isNFT row' = true <-> type data = "NON_FUNGIBLE_UNIQUE").
Proof.
  intros Hok.
  eexists _, (enriched data (settled_row world url (form st) formData)).
  split; [by apply fetchTokenData_success |].
  cbn [calls form]. rewrite updates_app. cbn [updates omap].
  repeat split; try apply at_index_after_update; apply String.eqb_eq.
Qed.

Lemma successful_lookup_enriches_row_witness :
  exists st' row',
    fetchTokenData (H := example_imports) example_props example_world
      example_url 0 (Some 0) example_state = (st', Normal (Some example_nft))
    /\ updates (calls st') = updates (calls example_state) ++ [(0, row')]
    /\ at_index (fields (form st')) 0 = Some row'
    /\ at_index (values (form st')) 0 = Some row'
    /\ tokenName row' = name example_nft
    /\ (isNFT row' = true <-> type example_nft = "NON_FUNGIBLE_UNIQUE").
Proof.
  apply (@successful_lookup_enriches_row example_imports example_props example_world
           example_url 0 0 example_state example_nft).
  reflexivity.
Defined.

(** ** Which events reach the network *)

Section Events.
Context `{Imports}.
Variable props : HoldersFormProps.
Variable world : World.

Local Ltac run_handler :=
  unfold fetchTokenData, try_catch, fetch, response_json, update, toast_error,
    setTokenDetailsList, getValues_formData_at, member, field_onChange,
    field_onBlur, setValue, write_member, bind, call, modify, ret, throw;
  cbn.

Local Ltac read_log :=
  cbn; rewrite ?fetches_app, ?updates_app, ?tokenDetailsLists_app; cbn;
  rewrite <- ?app_assoc, ?app_nil_r; cbn.

(** [fetchTokenData] sends one request, whatever it is given as row and
    however the request ends. *)
Lemma fetchTokenData_fetches url index formData st :
  fetches (calls (fst (fetchTokenData props world url index formData st)))
  = fetches (calls st) ++ [url].
Proof.
  run_handler.
  destruct (network world url) as [e | [[] code [e | data]]], formData as [row |];
    by read_log.
Qed.

Lemma handleTokenIdBlur_fetches tokenId index st :
  fetches (calls (fst (handleTokenIdBlur props world tokenId index st)))
  = fetches (calls st)
    ++ (if negb (String.eqb tokenId "") && isValidTokenId tokenId
        then [nodeUrl +:+ "/api/v1/tokens/" +:+ tokenId] else []).
Proof.
  unfold handleTokenIdBlur.
  destruct (negb (String.eqb tokenId "") && isValidTokenId tokenId).
  - unfold try_catch, handleTokenIdBlur_try, getValues_formData_at, bind, ret.
    pose proof (fetchTokenData_fetches (nodeUrl +:+ "/api/v1/tokens/" +:+ tokenId)
                  index (at_index (slots (form st)) index) st) as Hlog.
    destruct (fetchTokenData _ _ _ _ _ st) as [st' [result | error]]; cbn in *.
    + done.
    + rewrite fetches_app, Hlog; cbn.
      by rewrite app_nil_r.
  - unfold ret; cbn. by rewrite app_nil_r.
Qed.

Lemma handleTokenIdChange_fetches tokenId index st :
  fetches (calls (fst (handleTokenIdChange tokenId index st))) = fetches (calls st).
Proof.
  unfold handleTokenIdChange.
  destruct (String.eqb tokenId "" && negb (isValidTokenId tokenId)); [| done].
  run_handler.
  destruct (at_index (slots (form st)) index); by read_log.
Qed.

(** The requests an event of the form sends. *)
Lemma dispatch_fetches (event : UiEvent) (st : State) :
  fetches (calls (fst (dispatch props world event st)))
  = fetches (calls st)
    ++ match event with
       | tokenId_onBlur index value =>
           if negb (String.eqb value "") && isValidTokenId value
           then [nodeUrl +:+ "/api/v1/tokens/" +:+ value]
           else []
       | _ => []
       end.
Proof.
  destruct event as [index value | index value | index change | index checked |];
    cbn [dispatch]; rewrite ?app_nil_r.
  - unfold bind at 1, field_onChange at 1, bind at 1, call at 1, write_member, modify.
    cbn. rewrite handleTokenIdChange_fetches. by read_log.
  - unfold bind at 1, field_onBlur at 1, call at 1.
    cbn. rewrite handleTokenIdBlur_fetches. cbn. rewrite fetches_app. cbn.
    by rewrite app_nil_r.
  - run_handler. by read_log.
  - run_handler. by read_log.
  - unfold handleSubmit.
    destruct (formSchema _ _); [| done].
    rewrite onSubmit_calls. by read_log.
Qed.

(** C4: a blur of the token-id input of a row sends the lookup request
    (one request, to [nodeUrl/api/v1/tokens/tokenId]) exactly when the
    value of the input is not empty and [isValidTokenId] accepts it; no
    other event of the form sends a request. *)
Theorem only_valid_blur_fetches (event : UiEvent) (st : State) :
  fetches (calls (fst (dispatch props world event st)))
  = fetches (calls st)
    ++ match event with
       | tokenId_onBlur index value =>
           if negb (String.eqb value "") && isValidTokenId value
           then [nodeUrl +:+ "/api/v1/tokens/" +:+ value]
           else []
       | tokenId_onChange _ _ | field_input _ _
       | switch_onCheckedChange _ _ | form_onSubmit => []
       end.
Proof. apply dispatch_fetches. Qed.
End Events.

(** ** What the lookup writes beside the token *)

(** C8, as stated, does not hold: the members [fetchTokenData] writes
    are not those the row had before the request was sent.  With 5 in the
    minimum-amount input when the token-id input is left, and 9 typed into
    it while the request is in flight, the update writes 9. *)
Lemma captured_amount_is_not_kept :
  ~ (forall row',
        (0, row') ∈ updates (calls (fst (fetchTokenData (H := example_imports)
                                           example_props example_world_typing
                                           example_url 0 (Some 0) example_state))) ->
        minAmount row' = minAmount (heap (form example_state) 0)).
Proof.
  intros Hkept.
  specialize (Hkept (enriched example_nft (set_minAmount "9" example_row))).
  assert (Htyped : minAmount (enriched example_nft (set_minAmount "9" example_row)) = "9")
    by reflexivity.
  rewrite Htyped in Hkept.
  assert (Hcaptured : minAmount (heap (form example_state) 0) = "5") by reflexivity.
  rewrite Hcaptured in Hkept.
  discriminate Hkept. by apply list_elem_of_singleton.
Qed.

(** C8, amended: whether the lookup succeeds or fails, [fetchTokenData]
    makes one update, of the row at [index], and the row it writes has the
    [tokenId], [minAmount], [isDurationSelect], [duration], [isCollapsed]
    and [durationType] that the row object it holds has when the lookup
    has settled: those it had before the request, with whatever was
    written to the object while the request was awaited.  After a failure
    (the result is [undefined]) the [isNFT] flag is the one of the object
    as well. *)
Theorem lookup_writes_settled_members `{Imports} props world url index
    (formData : Ref) st :
  let settled := settled_row world url (form st) formData in
  exists st' result row',
    fetchTokenData props world url index (Some formData) st = (st', Normal result)
    /\ updates (calls st') = updates (calls st) ++ [(index, row')]
    /\ at_index (fields (form st')) index = Some row'
    /\ at_index (values (form st')) index = Some row'
    /\ tokenId row' = tokenId settled
    /\ minAmount row' = minAmount settled
    /\ isDurationSelect row' = isDurationSelect settled
    /\ duration row' = duration settled
    /\ isCollapsed row' = isCollapsed settled
    /\ durationType row' = durationType settled
    /\ (result = None -> isNFT row' = isNFT settled).
Proof.
  intros settled.
  destruct (lookup_failure_or_success (network world url))
    as [(error & Hfail & _) | (data & Hok & _)].
  - eexists _, None, (flagged settled).
    split; [by apply fetchTokenData_failure |].
    cbn [calls form]. rewrite updates_app. cbn [updates omap].
    repeat split; apply at_index_after_update.
  - eexists _, (Some data), (enriched data settled).
    split; [by apply fetchTokenData_success |].
    cbn [calls form]. rewrite updates_app. cbn [updates omap].
    repeat split; try apply at_index_after_update. discriminate.
Qed.

(** ** The list of token details *)

(** C9: after a successful lookup [setTokenDetailsList] is called once,
    with the [tokenDetailsList] of the properties followed by the fetched
    details (the details alone when the list is [undefined]).  When the
    parent renders the form again with that list, a second successful
    lookup of the same token hands over the list with the details twice
    at its end: nothing is removed and nothing is deduplicated. *)
Theorem lookup_appends_token_details `{Imports} props world url index (formData : Ref)
    st data :
  lookup_success (network world url) = Some data ->
  let previous := default [] (tokenDetailsList props) in
  let st1 := fst (fetchTokenData props world url index (Some formData) st) in
  tokenDetailsLists (calls st1) = tokenDetailsLists (calls st) ++ [previous ++ [data]]
  /\ (tokenDetailsList props = None -> previous ++ [data] = [data])
  /\ forall index' (formData' : Ref),
      let st2 := fst (fetchTokenData (rerender props (calls st1)) world url index'
                        (Some formData') st1) in
      tokenDetailsLists (calls st2)
      = tokenDetailsLists (calls st) ++ [previous ++ [data]; previous ++ [data; data]].
Proof.
  intros Hok previous st1.
  assert (Hlist : extended props data = previous ++ [data]).
  { unfold extended, previous. by destruct (tokenDetailsList props). }
  assert (Hfirst : tokenDetailsLists (calls st1)
                   = tokenDetailsLists (calls st) ++ [previous ++ [data]]).
  { unfold st1. rewrite (fetchTokenData_success props world url index formData st data Hok).
    cbn. rewrite tokenDetailsLists_app. cbn. by rewrite Hlist. }
  split; [exact Hfirst |].
  split; [unfold previous; by intros -> |].
  intros index' formData' st2. unfold st2.
  rewrite (fetchTokenData_success _ world url index' formData' st1 data Hok).
  cbn. rewrite tokenDetailsLists_app, Hfirst. cbn.
  unfold extended, rerender. cbn. rewrite Hfirst, last_snoc.
  by rewrite <- !app_assoc.
Qed.

Lemma lookup_appends_token_details_witness :
  let st1 := fst (fetchTokenData (H := example_imports) example_props example_world
                    example_url 0 (Some 0) example_state) in
  tokenDetailsLists (calls st1) = [[example_nft]]
  /\ (tokenDetailsList example_props = None -> [example_nft] = [example_nft])
  /\ forall index' (formData' : Ref),
      let st2 := fst (fetchTokenData (H := example_imports)
                        (rerender example_props (calls st1)) example_world example_url
                        index' (Some formData') st1) in
      tokenDetailsLists (calls st2) = [[example_nft]; [example_nft; example_nft]].
Proof.
  apply (@lookup_appends_token_details example_imports example_props example_world
           example_url 0 0 example_state example_nft).
  reflexivity.
Defined.

(** ** Best effort *)

(** C6: on a row, [fetchTokenData] always completes normally, with the
    fetched details after a successful lookup and with [undefined] after a
    failed one; so for a blur on an existing row the [try] block of
    [handleTokenIdBlur] completes normally and the handler is its [try]
    block alone: the [catch] branch does not run. *)
Theorem lookup_never_throws `{Imports} props world tokenId index row st :
  at_index (values (form st)) index = Some row ->
  let url := nodeUrl +:+ "/api/v1/tokens/" +:+ tokenId in
  (forall url' index' (formData : Ref) st0, exists st',
      fetchTokenData props world url' index' (Some formData) st0
      = (st', Normal (lookup_success (network world url'))))
  /\ (exists st', handleTokenIdBlur_try props world url index st = (st', Normal tt))
  /\ handleTokenIdBlur props world tokenId index st
     = if negb (String.eqb tokenId "") && isValidTokenId tokenId
       then handleTokenIdBlur_try props world url index st
       else (st, Normal tt).
Proof.
  intros Hrow url.
  assert (Hnormal : forall url' index' (formData : Ref) st0, exists st',
             fetchTokenData props world url' index' (Some formData) st0
             = (st', Normal (lookup_success (network world url')))).
  { intros url' index' formData st0.
    destruct (lookup_failure_or_success (network world url'))
      as [(error & Hfail & ->) | (data & Hok & _)].
    - eexists. by apply fetchTokenData_failure.
    - rewrite Hok. eexists. by apply fetchTokenData_success. }
  assert (Htry : exists st', handleTokenIdBlur_try props world url index st = (st', Normal tt)).
  { destruct (at_index_values_Some _ _ _ Hrow) as (o & Hslot & _).
    unfold handleTokenIdBlur_try, getValues_formData_at, bind, ret. rewrite Hslot.
    destruct (Hnormal url index o st) as [st' ->]. by exists st'. }
  split; [exact Hnormal |]. split; [exact Htry |].
  unfold handleTokenIdBlur.
  destruct (negb (String.eqb tokenId "") && isValidTokenId tokenId); [| done].
  fold url. unfold try_catch. by destruct Htry as [st' ->].
Qed.

Lemma lookup_never_throws_witness :
  (forall url' index' (formData : Ref) st0, exists st',
      fetchTokenData (H := example_imports) example_props example_world_404 url' index'
        (Some formData) st0
      = (st', Normal (lookup_success (network example_world_404 url'))))
  /\ (exists st', handleTokenIdBlur_try (H := example_imports) example_props
                    example_world_404 example_url 0 example_state = (st', Normal tt))
  /\ handleTokenIdBlur (H := example_imports) example_props example_world_404
       "0.0.1234" 0 example_state
     = handleTokenIdBlur_try (H := example_imports) example_props example_world_404
         example_url 0 example_state.
Proof.
  apply (@lookup_never_throws example_imports example_props example_world_404
           "0.0.1234" 0 example_row example_state).
  reflexivity.
Defined.

(** The hypothesis on the row is what keeps the [catch] of the handler
    idle: were [getValues().formData[index]] [undefined], the first
    property read would throw in the [try] block of [fetchTokenData] or,
    after a failed lookup, in its [catch] block, and the rejection would
    reach the caller.  The form renders inputs for existing rows only. *)
Lemma fetchTokenData_undefined_row `{Imports} props world url index st :
  exists st',
    fetchTokenData props world url index None st
    = (st', Throw (TypeError_undefined "tokenId")).
Proof.
  unfold fetchTokenData, try_catch, fetch, response_json, bind, call, modify.
  cbn.
  destruct (network world url) as [e | [[] code [e | data]]]; cbn; by eexists.
Qed.

Example blur_on_missing_row_toasts :
  toasts (calls_made (dispatch (H := example_imports) example_props example_world_404
                        (tokenId_onBlur 1 "0.0.1234")) example_form)
  = ["Error: HTTP error! status: 404";
     "TypeError: Cannot read properties of undefined (reading 'tokenId')"].
Proof. reflexivity. Qed.

Example blur_on_row_toasts :
  toasts (calls_made (dispatch (H := example_imports) example_props example_world_404
                        (tokenId_onBlur 0 "0.0.1234")) example_form)
  = ["Error: HTTP error! status: 404"].
Proof. reflexivity. Qed.

(** ** Typing in the token-id input *)

(** C10: granted that [isValidTokenId] rejects the empty string,
    [handleTokenIdChange] on an existing row updates the row exactly when
    the new value is empty, and then only sets its [tokenName] to the empty
    string; for every other value, accepted by [isValidTokenId] or not, it
    calls nothing and leaves the form as it is. *)
Theorem change_resets_name_iff_empty `{Imports} tokenId index row st :
  isValidTokenId "" = false ->
  at_index (values (form st)) index = Some row ->
  (tokenId = "" ->
   handleTokenIdChange tokenId index st
   = ({| form := after_update (form st) index (set_tokenName "" row);
         calls := calls st ++ [call_update index (set_tokenName "" row)] |},
      Normal tt))
  /\ (tokenId <> "" -> handleTokenIdChange tokenId index st = (st, Normal tt))
  /\ (updates (calls (fst (handleTokenIdChange tokenId index st))) <> updates (calls st)
      <-> tokenId = "").
Proof.
  intros Hempty Hrow.
  assert (Hreset : tokenId = "" ->
     handleTokenIdChange tokenId index st
     = ({| form := after_update (form st) index (set_tokenName "" row);
           calls := calls st ++ [call_update index (set_tokenName "" row)] |},
        Normal tt)).
  { intros ->. destruct (at_index_values_Some _ _ _ Hrow) as (o & Hslot & Hobj).
    unfold handleTokenIdChange. rewrite Hempty. cbn [String.eqb negb andb].
    unfold getValues_formData_at, member, update, bind, call, modify.
    rewrite Hslot. cbn. by rewrite Hobj. }
  assert (Hkeep : tokenId <> "" -> handleTokenIdChange tokenId index st = (st, Normal tt)).
  { intros Hne. unfold handleTokenIdChange.
    destruct (String.eqb_spec tokenId ""); [done | reflexivity]. }
  split; [exact Hreset |]. split; [exact Hkeep |].
  destruct (decide (tokenId = "")) as [-> | Hne].
  - rewrite Hreset by done. cbn. rewrite updates_app. cbn.
    split; [done |]. intros _ Heq.
    apply (f_equal length) in Heq. rewrite length_app in Heq. cbn in Heq. lia.
  - rewrite Hkeep by done. cbn. split; [done | by intros ->].
Qed.

Lemma change_resets_name_iff_empty_witness :
  ("" = "" ->
   handleTokenIdChange (H := example_imports) "" 0 example_state
   = ({| form := after_update (form example_state) 0 (set_tokenName "" example_row);
         calls := calls example_state ++ [call_update 0 (set_tokenName "" example_row)] |},
      Normal tt))
  /\ ("" <> "" -> handleTokenIdChange (H := example_imports) "" 0 example_state
                  = (example_state, Normal tt))
  /\ (updates (calls (fst (handleTokenIdChange (H := example_imports) "" 0 example_state)))
      <> updates (calls example_state)
      <-> "" = "").
Proof.
  apply (@change_resets_name_iff_empty example_imports "" 0 example_row example_state);
    reflexivity.
Defined.

(** ** Rendering a row *)

(** C5: in what a row renders, a control of the time-window filter (the
    switch, the number input, the type select, the date picker) occurs
    only if the [isNFT] flag of the row is true; a row whose flag is false
    renders the token-id input, the token name when there is one, and the
    minimum-amount input, so its only inputs are these two. *)
Theorem filter_controls_only_for_nft (f : FormState) (index : nat) (field : Row)
    (es : list Element) :
  render_row f index field = Normal es ->
  (forall c, c ∈ filter_controls es -> isNFT field = true)
  /\ (isNFT field = false ->
      es = [TokenIdInput index]
             ++ (if String.eqb (tokenName field) "" then [] else [TokenNameText (tokenName field)])
             ++ [MinAmountInput index]
      /\ filter is_input es = [TokenIdInput index; MinAmountInput index]
      /\ filter_controls es = []).
Proof.
  unfold render_row. destruct (isNFT field) eqn:Hnft.
  - intros _. split; [done | discriminate].
  - intros [= <-]. split.
    + destruct (String.eqb (tokenName field) ""); cbn; intros c Hc; inversion Hc.
    + intros _. by destruct (String.eqb (tokenName field) "").
Qed.

Lemma filter_controls_only_for_nft_witness :
  (forall c, c ∈ filter_controls [TokenIdInput 0; MinAmountInput 0] -> isNFT example_row = true)
  /\ (isNFT example_row = false ->
      [TokenIdInput 0; MinAmountInput 0]
      = [TokenIdInput 0]
          ++ (if String.eqb (tokenName example_row) "" then []
              else [TokenNameText (tokenName example_row)])
          ++ [MinAmountInput 0]
      /\ filter is_input [TokenIdInput 0; MinAmountInput 0] = [TokenIdInput 0; MinAmountInput 0]
      /\ filter_controls [TokenIdInput 0; MinAmountInput 0] = []).
Proof.
  apply (filter_controls_only_for_nft example_form 0 example_row).
  reflexivity.
Defined.

(** A non-fungible row does render the filter: the switch and, by the
    live [isDurationSelect], the number input with the type select or the
    date picker. *)
Lemma render_row_nft (f : FormState) (index : nat) (field value : Row) :
  isNFT field = true ->
  at_index (values f) index = Some value ->
  exists es,
    render_row f index field = Normal es
    /\ filter_controls es
       = DurationSwitch (isDurationSelect value)
         :: if isDurationSelect value
            then [DurationNumberInput (duration value); DurationTypeSelect (durationType value)]
            else [DatePicker (duration value)].
Proof.
  intros Hnft Hvalue. unfold render_row. rewrite Hnft, Hvalue.
  eexists. split; [reflexivity |].
  destruct (String.eqb (tokenName field) ""), (isDurationSelect value); reflexivity.
Qed.

(** ** The outward contract *)

Lemma dispatch_submit_setters :
  setters (calls_made (dispatch (H := example_imports) example_props example_world
                         form_onSubmit) example_form)
  = [SetFormData; SetData; SetShouldFetch].
Proof. reflexivity. Qed.

Lemma dispatch_blur_setters :
  setters (calls_made (dispatch (H := example_imports) example_props example_world
                         (tokenId_onBlur 0 "0.0.1234")) example_form)
  = [SetTokenDetailsList].
Proof. reflexivity. Qed.

Lemma four_setters_NoDup :
  NoDup [SetFormData; SetData; SetShouldFetch; SetTokenDetailsList].
Proof. by apply (bool_decide_unpack _). Qed.

Lemma setter_called (s : Setter) :
  exists (I : Imports) props world event f,
    s ∈ setters (calls_made (dispatch props world event) f).
Proof.
  exists example_imports, example_props, example_world.
  destruct s.
  1-3: exists form_onSubmit, example_form; rewrite dispatch_submit_setters.
  4: exists (tokenId_onBlur 0 "0.0.1234"), example_form; rewrite dispatch_blur_setters.
  all: set_solver.
Qed.

(** C7, as stated, does not hold: the setters the form calls are not
    exactly three, for a submit calls [setFormData], [setData] and
    [setShouldFetch] and a blur with a successful lookup calls
    [setTokenDetailsList]. *)
Lemma setters_called_not_three : ~ setters_called 3.
Proof.
  intros (l & Hnodup & Hlen & Hall & _).
  assert (Hin : forall s, s ∈ l).
  { intros s. destruct (setter_called s) as (I & props & world & event & f & Hs).
    by eapply Hall. }
  assert (Hsub : [SetFormData; SetData; SetShouldFetch; SetTokenDetailsList] ⊆+ l).
  { apply NoDup_submseteq; [apply four_setters_NoDup | by intros s _]. }
  apply submseteq_length in Hsub. cbn in Hsub. lia.
Qed.

(** C7, amended: the setters the form calls are exactly four
    ([setFormData], [setData], [setShouldFetch] and
    [setTokenDetailsList]), and every request it sends is the lookup of a
    token by its identifier, [nodeUrl/api/v1/tokens/tokenId]. *)
Theorem outward_contract_four_setters :
  setters_called 4
  /\ forall (I : Imports) props world event st url,
      url ∈ fetches (calls_made (dispatch props world event) st) ->
      exists tokenId, url = nodeUrl +:+ "/api/v1/tokens/" +:+ tokenId.
Proof.
  split.
  - exists [SetFormData; SetData; SetShouldFetch; SetTokenDetailsList].
    split; [| split; [reflexivity | split]].
    + apply four_setters_NoDup.
    + intros I props world event f s _. destruct s; set_solver.
    + intros s _. apply setter_called.
  - intros I props world event f url. unfold calls_made.
    rewrite dispatch_fetches. cbn.
    destruct event as [| index value | | |]; try set_solver.
    destruct (negb (String.eqb value "") && isValidTokenId value); [| set_solver].
    intros ->%list_elem_of_singleton. by exists value.
Qed.

(** * Further properties *)

(** ** Runs of the handlers *)

Section Runs.
Context `{Imports}.
Variable props : HoldersFormProps.
Variable world : World.

(** The run of [fetchTokenData] on a row object, whatever the outcome. *)
Lemma fetchTokenData_row url index (o : Ref) st :
  exists c,
    fetchTokenData props world url index (Some o) st
    = ({| form := after_update (awaited world url (form st)) index
                    (looked_up (network world url) (settled_row world url (form st) o));
          calls := calls st
                   ++ [call_fetch url; c;
                       call_update index
                         (looked_up (network world url)
                            (settled_row world url (form st) o))] |},
       Normal (lookup_success (network world url)))
    /\ setter_of c = (fun _ => SetTokenDetailsList) <$> lookup_success (network world url)
    /\ updates [c] = [].
Proof.
  unfold looked_up.
  destruct (lookup_failure_or_success (network world url))
    as [(error & Hfail & Hnone) | (data & Hok & _)].
  - rewrite Hnone. eexists. split; [by apply fetchTokenData_failure | done].
  - rewrite Hok. eexists. split; [by apply fetchTokenData_success | done].
Qed.

(** The run of [fetchTokenData] when it is given [undefined] for the row:
    the request is sent all the same, a fetched token still goes to
    [setTokenDetailsList], and the read of [formData.tokenId] throws, in
    the [try] block after a success and in the [catch] block in any case. *)
Lemma fetchTokenData_missing_row url index st :
  fetchTokenData props world url index None st
  = ({| form := awaited world url (form st);
        calls := calls st ++ [call_fetch url]
                 ++ match lookup_success (network world url),
                          lookup_failure (network world url) with
                    | Some data, _ =>
                        [call_setTokenDetailsList (extended props data);
                         call_toast_error (toString (TypeError_undefined "tokenId"))]
                    | None, Some error => [call_toast_error (toString error)]
                    | None, None => []
                    end |},
     Throw (TypeError_undefined "tokenId")).
Proof.
  unfold fetchTokenData, try_catch, fetch, response_json, member, awaited, bind, call,
    modify.
  cbn.
  destruct (network world url) as [e | [[] code [e | data]]]; cbn;
    by rewrite <- ?app_assoc.
Qed.

(** A blur with a value that is empty or that [isValidTokenId] rejects
    does nothing. *)
Lemma handleTokenIdBlur_rejected tokenId index st :
  negb (String.eqb tokenId "") && isValidTokenId tokenId = false ->
  handleTokenIdBlur props world tokenId index st = (st, Normal tt).
Proof. intros Hbad. unfold handleTokenIdBlur. by rewrite Hbad. Qed.

(** A blur with an accepted value on an existing row is the lookup. *)
Lemma handleTokenIdBlur_row tokenId index (o : Ref) st :
  negb (String.eqb tokenId "") && isValidTokenId tokenId = true ->
  at_index (slots (form st)) index = Some o ->
  handleTokenIdBlur props world tokenId index st
  = (fst (fetchTokenData props world (nodeUrl +:+ "/api/v1/tokens/" +:+ tokenId)
            index (Some o) st),
     Normal tt).
Proof.
  intros Hgood Hslot. unfold handleTokenIdBlur. rewrite Hgood.
  unfold try_catch, handleTokenIdBlur_try, getValues_formData_at, bind, ret.
  rewrite Hslot.
  destruct (fetchTokenData_row (nodeUrl +:+ "/api/v1/tokens/" +:+ tokenId) index o st)
    as (c & -> & _ & _).
  reflexivity.
Qed.

(** A blur with an accepted value on a missing row: the rejection of
    [fetchTokenData] is caught by the handler and toasted once more. *)
Lemma handleTokenIdBlur_missing_row tokenId index st :
  negb (String.eqb tokenId "") && isValidTokenId tokenId = true ->
  at_index (slots (form st)) index = None ->
  handleTokenIdBlur props world tokenId index st
  = (let st' := fst (fetchTokenData props world
                       (nodeUrl +:+ "/api/v1/tokens/" +:+ tokenId) index None st) in
     {| form := form st';
        calls := calls st' ++ [call_toast_error (toString (TypeError_undefined "tokenId"))] |},
     Normal tt).
Proof.
  intros Hgood Hrow. unfold handleTokenIdBlur. rewrite Hgood.
  unfold try_catch, handleTokenIdBlur_try, getValues_formData_at, bind, ret.
  rewrite Hrow, fetchTokenData_missing_row. reflexivity.
Qed.

(** [handleTokenIdChange] by cases. *)
Lemma handleTokenIdChange_kept tokenId index st :
  String.eqb tokenId "" && negb (isValidTokenId tokenId) = false ->
  handleTokenIdChange tokenId index st = (st, Normal tt).
Proof. intros Hkeep. unfold handleTokenIdChange. by rewrite Hkeep. Qed.

Lemma handleTokenIdChange_row tokenId index row st :
  String.eqb tokenId "" && negb (isValidTokenId tokenId) = true ->
  at_index (values (form st)) index = Some row ->
  handleTokenIdChange tokenId index st
  = ({| form := after_update (form st) index (set_tokenName "" row);
        calls := calls st ++ [call_update index (set_tokenName "" row)] |},
     Normal tt).
Proof.
  intros Hreset Hrow. destruct (at_index_values_Some _ _ _ Hrow) as (o & Hslot & Hobj).
  unfold handleTokenIdChange. rewrite Hreset.
  unfold getValues_formData_at, member, update, bind, call, modify.
  rewrite Hslot. cbn. by rewrite Hobj.
Qed.

Lemma handleTokenIdChange_missing_row tokenId index st :
  String.eqb tokenId "" && negb (isValidTokenId tokenId) = true ->
  at_index (values (form st)) index = None ->
  handleTokenIdChange tokenId index st = (st, Throw (TypeError_undefined "tokenId")).
Proof.
  intros Hreset Hrow%at_index_values_None. unfold handleTokenIdChange. rewrite Hreset.
  unfold getValues_formData_at, member, bind. by rewrite Hrow.
Qed.
End Runs.

(** ** Logs and live rows, continued *)

Lemma setters_app (cs cs' : list Call) : setters (cs ++ cs') = setters cs ++ setters cs'.
Proof. apply omap_app. Qed.

Lemma toasts_app (cs cs' : list Call) : toasts (cs ++ cs') = toasts cs ++ toasts cs'.
Proof. apply omap_app. Qed.

(** [toString] of an [Error] with a message. *)
Lemma toString_Error (msg : string) :
  msg <> "" -> toString (Error msg) = "Error: " +:+ msg.
Proof.
  intros Hmsg. unfold toString, Error; cbn.
  destruct (decide (msg = "")); [done | reflexivity].
Qed.

Lemma http_message_not_empty (text code : string) : text +:+ " " +:+ code <> "".
Proof. by destruct text. Qed.

(** ** The blur handler at its edges *)

(** X1: [handleTokenIdBlur] never throws: for every value, index, form
    and network it completes normally, on a missing row as well, where its
    [catch] takes the rejection of [fetchTokenData]. *)
Theorem blur_handler_never_throws `{Imports} props world tokenId index st :
  exists st', handleTokenIdBlur props world tokenId index st = (st', Normal tt).
Proof.
  destruct (negb (String.eqb tokenId "") && isValidTokenId tokenId) eqn:Hvalid.
  - destruct (at_index (slots (form st)) index) as [o |] eqn:Hslot.
    + eexists. by apply handleTokenIdBlur_row.
    + eexists. by apply handleTokenIdBlur_missing_row.
  - eexists. by apply handleTokenIdBlur_rejected.
Qed.

(** X2: a blur with an accepted value on a row that does not exist still
    sends the request and, after a success, still calls
    [setTokenDetailsList]; it updates no row, and toasts the [TypeError] of
    the read of [formData.tokenId] once per [catch] it passes: after the
    lookup error when the lookup failed, twice when it succeeded. *)
Theorem blur_on_missing_row `{Imports} props world tokenId index st :
  negb (String.eqb tokenId "") && isValidTokenId tokenId = true ->
  at_index (values (form st)) index = None ->
  let url := nodeUrl +:+ "/api/v1/tokens/" +:+ tokenId in
  let oops := call_toast_error (toString (TypeError_undefined "tokenId")) in
  handleTokenIdBlur props world tokenId index st
  = ({| form := awaited world url (form st);
        calls := calls st ++ [call_fetch url]
                 ++ match lookup_success (network world url),
                          lookup_failure (network world url) with
                    | Some data, _ => [call_setTokenDetailsList (extended props data); oops; oops]
                    | None, Some error => [call_toast_error (toString error); oops]
                    | None, None => []
                    end |},
     Normal tt).
Proof.
  intros Hvalid Hrow%at_index_values_None url oops.
  rewrite handleTokenIdBlur_missing_row by done.
  rewrite fetchTokenData_missing_row. cbn. fold url. fold oops.
  destruct (lookup_failure_or_success (network world url))
    as [(error & Hfail & Hnone) | (data & Hok & _)].
  - rewrite Hnone, Hfail. cbn. by rewrite <- ?app_assoc.
  - rewrite Hok. cbn. by rewrite <- ?app_assoc.
Qed.

Lemma blur_on_missing_row_witness :
  handleTokenIdBlur (H := example_imports) example_props example_world "0.0.1234" 1
    example_state
  = ({| form := example_form;
        calls := [call_fetch example_url;
                  call_setTokenDetailsList [example_nft];
                  call_toast_error
                    "TypeError: Cannot read properties of undefined (reading 'tokenId')";
                  call_toast_error
                    "TypeError: Cannot read properties of undefined (reading 'tokenId')"] |},
     Normal tt).
Proof.
  apply (@blur_on_missing_row example_imports example_props example_world "0.0.1234" 1
           example_state); reflexivity.
Defined.

(** X3: unlike the blur handler, [handleTokenIdChange] has no [catch]: on
    a row that does not exist, an empty value (rejected by
    [isValidTokenId]) makes it throw the [TypeError] of the read of
    [formData.tokenId], before any update. *)
Theorem change_on_missing_row_throws `{Imports} index st :
  isValidTokenId "" = false ->
  at_index (values (form st)) index = None ->
  handleTokenIdChange "" index st = (st, Throw (TypeError_undefined "tokenId")).
Proof.
  intros Hempty Hrow. apply handleTokenIdChange_missing_row; [| done].
  by rewrite Hempty.
Qed.

Lemma change_on_missing_row_throws_witness :
  handleTokenIdChange (H := example_imports) "" 1 example_state
  = (example_state, Throw (TypeError_undefined "tokenId")).
Proof.
  apply (@change_on_missing_row_throws example_imports 1 example_state); reflexivity.
Defined.

(** ** A response that is not ok *)

(** X6: when the response is not ok, the body is never read: the run does
    not depend on what [response.json()] would give, nothing happens to
    the form after the wait for the request, the row written is made from
    the row object as that wait left it, and the toast reads ["Error: "],
    the [httpError] entry, a space and the status in decimal. *)
Theorem http_error_is_toasted_without_parsing `{Imports} props world url index
    (formData : Ref) st response :
  network world url = fetch_resolves response ->
  ok response = false ->
  let settled := heap (in_flight world (form st)) formData in
  fetchTokenData props world url index (Some formData) st
  = ({| form := after_update (in_flight world (form st)) index (flagged settled);
        calls := calls st
                 ++ [call_fetch url;
                     call_toast_error
                       ("Error: " +:+ httpError dictionary +:+ " " +:+ pretty (status response));
                     call_update index (flagged settled)] |},
     Normal None).
Proof.
  intros Hnet Hok settled.
  rewrite (fetchTokenData_failure props world url index formData st
             (Error (httpError dictionary +:+ " " +:+ pretty (status response)))).
  - unfold settled, settled_row, awaited. rewrite Hnet, Hok.
    by rewrite toString_Error by apply http_message_not_empty.
  - unfold lookup_failure. by rewrite Hnet, Hok.
Qed.

Lemma http_error_is_toasted_without_parsing_witness :
  let settled := heap (in_flight example_world_404 (form example_state)) 0 in
  fetchTokenData (H := example_imports) example_props example_world_404 example_url 0
    (Some 0) example_state
  = ({| form := after_update (in_flight example_world_404 (form example_state)) 0
                  (flagged (H := example_imports) settled);
        calls := calls example_state
                 ++ [call_fetch example_url;
                     call_toast_error
                       ("Error: " +:+ "HTTP error! status:" +:+ " " +:+ pretty 404%N);
                     call_update 0 (flagged (H := example_imports) settled)] |},
     Normal None).
Proof.
  apply (@http_error_is_toasted_without_parsing example_imports example_props
           example_world_404 example_url 0 0 example_state
           {| ok := false; status := 404;
              json := json_rejects {| error_name := "SyntaxError";
                                      message := "Unexpected end of JSON input" |} |});
    reflexivity.
Defined.

(** ** The other rows *)

(** X7: [fetchTokenData] touches the live values of no other row: at
    every index but its own, the row after the run is the row the form had
    when the lookup settled, whether the lookup succeeded or failed and
    whether its own row exists or not. *)
Theorem lookup_keeps_other_rows `{Imports} props world url index formData st j :
  j <> index ->
  at_index (values (form (fst (fetchTokenData props world url index formData st)))) j
  = at_index (values (awaited world url (form st))) j.
Proof.
  intros Hne. destruct formData as [o |].
  - destruct (fetchTokenData_row props world url index o st) as (c & -> & _ & _).
    cbn [fst form]. rewrite values_after_update. by apply at_index_set_index_ne.
  - by rewrite fetchTokenData_missing_row.
Qed.

Lemma lookup_keeps_other_rows_witness :
  at_index (values (form (fst (fetchTokenData (H := example_imports) example_props
                                 example_world example_url 1 (Some 0)
                                 example_state)))) 0
  = at_index (values (awaited example_world example_url (form example_state))) 0.
Proof.
  apply (@lookup_keeps_other_rows example_imports example_props example_world example_url
           1 (Some 0) example_state 0).
  lia.
Defined.

(** ** What each event calls *)

Section Dispatch.
Context `{Imports}.
Variable props : HoldersFormProps.
Variable world : World.

(** The form and the log after the two calls of the [onChange] of the
    token-id input that come before [handleTokenIdChange]. *)
Lemma field_onChange_run index change st :
  field_onChange index change st
  = ({| form := written (form st) index change;
        calls := calls st ++ [call_field_onChange index] |},
     Normal tt).
Proof. reflexivity. Qed.

Lemma field_onBlur_run index st :
  field_onBlur index st
  = ({| form := form st; calls := calls st ++ [call_field_onBlur index] |}, Normal tt).
Proof. reflexivity. Qed.

Lemma switch_run index checked st :
  dispatch props world (switch_onCheckedChange index checked) st
  = ({| form := written (written (form st) index (set_isDurationSelect checked)) index
                  (set_duration (duration_string ""));
        calls := calls st ++ [call_setValue index "isDurationSelect";
                              call_setValue index "duration"] |},
     Normal tt).
Proof.
  cbn [dispatch]. unfold setValue, write_member, bind, call, modify. cbn.
  by rewrite <- app_assoc.
Qed.

(** The run of a blur of the token-id input. *)
Lemma blur_run index value st :
  dispatch props world (tokenId_onBlur index value) st
  = handleTokenIdBlur props world value index
      {| form := form st; calls := calls st ++ [call_field_onBlur index] |}.
Proof. reflexivity. Qed.

(** The run of a change of the token-id input. *)
Lemma change_run index value st :
  dispatch props world (tokenId_onChange index value) st
  = handleTokenIdChange value index
      {| form := written (form st) index (set_tokenId value);
         calls := calls st ++ [call_field_onChange index] |}.
Proof. reflexivity. Qed.

(** X4: the setters an event calls: a submit whose values pass the schema
    calls [setFormData], [setData] and [setShouldFetch], a blur with an
    accepted value calls [setTokenDetailsList] when the lookup succeeds
    (on a missing row as well), and nothing else calls a setter: not a
    submit that fails the schema, not a failed lookup, not typing. *)
Theorem dispatch_setters_calls (event : UiEvent) (st : State) :
  setters (calls (fst (dispatch props world event st)))
  = setters (calls st)
    ++ match event with
       | form_onSubmit =>
           if formSchema (default [] (tokenDetailsList props)) (values (form st))
           then [SetFormData; SetData; SetShouldFetch]
           else []
       | tokenId_onBlur index value =>
           if negb (String.eqb value "") && isValidTokenId value
           then match lookup_success (network world (nodeUrl +:+ "/api/v1/tokens/" +:+ value)) with
                | Some _ => [SetTokenDetailsList]
                | None => []
                end
           else []
       | tokenId_onChange _ _ | field_input _ _ | switch_onCheckedChange _ _ => []
       end.
Proof.
  destruct event as [index value | index value | index change | index checked |].
  - rewrite change_run.
    destruct (String.eqb value "" && negb (isValidTokenId value)) eqn:Hreset.
    + match goal with |- context [handleTokenIdChange _ _ ?s] => set (st1 := s) end.
      destruct (at_index (values (form st1)) index) as [row |] eqn:Hrow.
      * rewrite (handleTokenIdChange_row value index row st1 Hreset Hrow).
        subst st1. cbn. rewrite !setters_app. cbn. by rewrite !app_nil_r.
      * rewrite (handleTokenIdChange_missing_row value index st1 Hreset Hrow).
        subst st1. cbn. rewrite !setters_app. cbn. by rewrite !app_nil_r.
    + rewrite handleTokenIdChange_kept by done. cbn. rewrite setters_app. cbn.
      by rewrite !app_nil_r.
  - rewrite blur_run.
    destruct (negb (String.eqb value "") && isValidTokenId value) eqn:Hvalid.
    + match goal with |- context [handleTokenIdBlur _ _ _ _ ?s] => set (st1 := s) end.
      set (url := nodeUrl +:+ "/api/v1/tokens/" +:+ value).
      destruct (at_index (slots (form st1)) index) as [o |] eqn:Hrow.
      * rewrite (handleTokenIdBlur_row props world value index o st1 Hvalid Hrow).
        fold url.
        destruct (fetchTokenData_row props world url index o st1) as (c & -> & Hc & _).
        subst st1. cbn. rewrite !setters_app. cbn. rewrite Hc.
        destruct (lookup_success (network world url)); cbn; by rewrite ?app_nil_r.
      * rewrite (handleTokenIdBlur_missing_row props world value index st1 Hvalid Hrow).
        fold url. rewrite fetchTokenData_missing_row.
        subst st1. cbn. rewrite !setters_app. cbn.
        destruct (lookup_failure_or_success (network world url))
          as [(error & Hfail & Hnone) | (data & Hok & _)].
        -- rewrite Hnone, Hfail. cbn. by rewrite ?app_nil_r.
        -- rewrite Hok. cbn. by rewrite ?app_nil_r.
    + rewrite handleTokenIdBlur_rejected by done. cbn. rewrite setters_app. cbn.
      by rewrite !app_nil_r.
  - cbn [dispatch]. rewrite field_onChange_run. cbn. rewrite setters_app. cbn.
    by rewrite !app_nil_r.
  - rewrite switch_run. cbn. rewrite setters_app. cbn. by rewrite !app_nil_r.
  - cbn [dispatch]. unfold handleSubmit.
    destruct (formSchema _ _); [| by rewrite app_nil_r].
    rewrite onSubmit_calls. cbn. by rewrite setters_app.
Qed.

(** X5: the rows an event hands to [update]: emptying the token-id input
    of an existing row (with [isValidTokenId] rejecting the value) updates
    that row with the emptied [tokenId] and an empty [tokenName]; a blur
    with an accepted value on an existing row updates that row with the
    result of the lookup, written over the members the row object of the
    slot has when the lookup has settled; and nothing else updates: no
    other event, and no event on a missing row.  The index is always the
    one of the event. *)
Theorem dispatch_updates_calls (event : UiEvent) (st : State) :
  updates (calls (fst (dispatch props world event st)))
  = updates (calls st)
    ++ match event with
       | tokenId_onChange index value =>
           if String.eqb value "" && negb (isValidTokenId value)
           then match at_index (values (form st)) index with
                | Some row => [(index, set_tokenName "" (set_tokenId value row))]
                | None => []
                end
           else []
       | tokenId_onBlur index value =>
           if negb (String.eqb value "") && isValidTokenId value
           then match at_index (slots (form st)) index with
                | Some o =>
                    let url := nodeUrl +:+ "/api/v1/tokens/" +:+ value in
                    [(index, looked_up (network world url) (settled_row world url (form st) o))]
                | None => []
                end
           else []
       | field_input _ _ | switch_onCheckedChange _ _ | form_onSubmit => []
       end.
Proof.
  destruct event as [index value | index value | index change | index checked |].
  - rewrite change_run.
    destruct (String.eqb value "" && negb (isValidTokenId value)) eqn:Hreset.
    + match goal with |- context [handleTokenIdChange _ _ ?s] => set (st1 := s) end.
      assert (Hlive : at_index (values (form st1)) index
                      = set_tokenId value <$> at_index (values (form st)) index)
        by apply at_index_values_written.
      destruct (at_index (values (form st)) index) as [row |]; cbn in Hlive.
      * rewrite (handleTokenIdChange_row value index _ st1 Hreset Hlive).
        subst st1. cbn. rewrite !updates_app. cbn. by rewrite !app_nil_r.
      * rewrite (handleTokenIdChange_missing_row value index st1 Hreset Hlive).
        subst st1. cbn. rewrite !updates_app. cbn. by rewrite !app_nil_r.
    + rewrite handleTokenIdChange_kept by done. cbn. rewrite updates_app. cbn.
      by rewrite !app_nil_r.
  - rewrite blur_run.
    destruct (negb (String.eqb value "") && isValidTokenId value) eqn:Hvalid.
    + match goal with |- context [handleTokenIdBlur _ _ _ _ ?s] => set (st1 := s) end.
      set (url := nodeUrl +:+ "/api/v1/tokens/" +:+ value).
      assert (Hlive : at_index (slots (form st1)) index = at_index (slots (form st)) index)
        by reflexivity.
      destruct (at_index (slots (form st)) index) as [o |].
      * rewrite (handleTokenIdBlur_row props world value index o st1 Hvalid Hlive).
        fold url.
        destruct (fetchTokenData_row props world url index o st1) as (c & -> & _ & Hno).
        subst st1. cbn. rewrite !updates_app. cbn.
        destruct c; try discriminate Hno; by rewrite ?app_nil_r.
      * rewrite (handleTokenIdBlur_missing_row props world value index st1 Hvalid Hlive).
        fold url. rewrite fetchTokenData_missing_row.
        subst st1. cbn. rewrite !updates_app. cbn.
        destruct (lookup_failure_or_success (network world url))
          as [(error & Hfail & Hnone) | (data & Hok & _)].
        -- rewrite Hnone, Hfail. cbn. by rewrite ?app_nil_r.
        -- rewrite Hok. cbn. by rewrite ?app_nil_r.
    + rewrite handleTokenIdBlur_rejected by done. cbn. rewrite updates_app. cbn.
      by rewrite !app_nil_r.
  - cbn [dispatch]. rewrite field_onChange_run. cbn. rewrite updates_app. cbn.
    by rewrite !app_nil_r.
  - rewrite switch_run. cbn. rewrite updates_app. cbn. by rewrite !app_nil_r.
  - cbn [dispatch]. unfold handleSubmit.
    destruct (formSchema _ _); [| by rewrite app_nil_r].
    rewrite onSubmit_calls. cbn. rewrite updates_app. cbn. by rewrite !app_nil_r.
Qed.
End Dispatch.

(** ** The rows of the form *)

Lemma well_formed_after_update n f index value :
  well_formed n f -> index < n -> well_formed n (after_update f index value).
Proof.
  intros (Hfields & Hvalues & Hall_fields & Hall_values) Hlt.
  unfold well_formed. rewrite values_after_update, fields_after_update.
  rewrite length_set_index, Hvalues.
  repeat split; try lia; apply Forall_is_Some_set_index; (done || lia).
Qed.

Lemma well_formed_written n f index change :
  well_formed n f -> well_formed n (written f index change).
Proof.
  intros (Hfields & Hvalues & Hall_fields & Hall_values).
  unfold well_formed. rewrite fields_written, length_values, slots_written.
  rewrite length_values in Hvalues.
  repeat split; try done.
  apply Forall_is_Some_rows_of. rewrite slots_written.
  by apply (Forall_is_Some_rows_of (heap f)).
Qed.

Lemma well_formed_awaited world url n f :
  keeps_rows world -> well_formed n f -> well_formed n (awaited world url f).
Proof.
  intros Hkeeps Hwf. unfold awaited.
  destruct (network world url) as [e | response].
  - by apply Hkeeps.
  - destruct (ok response); [apply Hkeeps |]; by apply Hkeeps.
Qed.

Lemma well_formed_at_index n f index :
  well_formed n f -> index < n ->
  is_Some (at_index (fields f) index) /\ is_Some (at_index (values f) index).
Proof.
  intros (Hfields & Hvalues & Hall_fields & Hall_values) Hlt.
  assert (Hslot : forall arr : Rows, length arr = n -> Forall is_Some arr ->
                                     is_Some (at_index arr index)).
  { intros arr Hlen Hall.
    destruct (lookup_lt_is_Some_2 arr index) as [slot Hslot]; [lia |].
    destruct (Forall_lookup_1 _ _ _ _ Hall Hslot) as [row ->].
    exists row. by apply at_index_lookup. }
  split; by apply Hslot.
Qed.

(** An event keeps the rows of the form. *)
Lemma dispatch_well_formed `{Imports} props world event n st :
  keeps_rows world ->
  well_formed n (form st) ->
  well_formed n (form (fst (dispatch props world event st))).
Proof.
  intros Hkeeps Hwf.
  destruct event as [index value | index value | index change | index checked |].
  - rewrite change_run.
    match goal with |- context [handleTokenIdChange _ _ ?s] => set (st1 := s) end.
    assert (Hwf1 : well_formed n (form st1)) by by apply well_formed_written.
    destruct (String.eqb value "" && negb (isValidTokenId value)) eqn:Hreset.
    + destruct (at_index (values (form st1)) index) as [row |] eqn:Hrow.
      * rewrite (handleTokenIdChange_row value index row st1 Hreset Hrow). cbn.
        apply well_formed_after_update; [done |].
        apply at_index_Some_lt in Hrow. destruct Hwf1 as (_ & <- & _). done.
      * by rewrite (handleTokenIdChange_missing_row value index st1 Hreset Hrow).
    + by rewrite handleTokenIdChange_kept.
  - rewrite blur_run.
    match goal with |- context [handleTokenIdBlur _ _ _ _ ?s] => set (st1 := s) end.
    destruct (negb (String.eqb value "") && isValidTokenId value) eqn:Hvalid.
    + destruct (at_index (slots (form st1)) index) as [o |] eqn:Hrow.
      * rewrite (handleTokenIdBlur_row props world value index o st1 Hvalid Hrow).
        destruct (fetchTokenData_row props world
                    (nodeUrl +:+ "/api/v1/tokens/" +:+ value) index o st1)
          as (c & -> & _ & _).
        cbn [fst form]. apply well_formed_after_update; [by apply well_formed_awaited |].
        apply at_index_Some_lt in Hrow. cbn in Hrow.
        destruct Hwf as (_ & <- & _). by rewrite length_values.
      * rewrite (handleTokenIdBlur_missing_row props world value index st1 Hvalid Hrow).
        rewrite fetchTokenData_missing_row. cbn. by apply well_formed_awaited.
    + by rewrite handleTokenIdBlur_rejected.
  - cbn [dispatch]. rewrite field_onChange_run. cbn [fst form].
    by apply well_formed_written.
  - rewrite switch_run. cbn [fst form]. by do 2 apply well_formed_written.
  - cbn [dispatch]. unfold handleSubmit.
    destruct (formSchema _ _); [| done]. by rewrite onSubmit_calls.
Qed.

(** A form with all its rows renders them all. *)
Lemma render_rows_all f rest : forall index,
  Forall is_Some rest ->
  (forall k, k < length rest -> is_Some (at_index (values f) (index + k))) ->
  exists rows, render_rows f index rest = Normal rows /\ length rows = length rest.
Proof.
  induction rest as [| slot rest IH]; intros index Hall Hlive.
  - by exists [].
  - apply Forall_cons in Hall as [[field ->] Hall].
    destruct (IH (S index) Hall) as (rows & Hrows & Hlen).
    { intros k Hk. replace (S index + k) with (index + S k) by lia.
      apply Hlive. cbn. lia. }
    assert (Hrow : exists row, render_row f index field = Normal row).
    { unfold render_row. destruct (isNFT field); [| by eexists].
      destruct (Hlive 0) as [value Hvalue]; [cbn; lia |].
      rewrite Nat.add_0_r in Hvalue. rewrite Hvalue. by eexists. }
    destruct Hrow as [row Hrow].
    exists (row :: rows). cbn. rewrite Hrow, Hrows. split; [done | by rewrite <- Hlen].
Qed.

Lemma render_all props n f :
  well_formed n f ->
  exists rows, render props f = Normal (rows, render_submit props) /\ length rows = n.
Proof.
  intros Hwf. pose proof Hwf as (Hfields & Hvalues & Hall_fields & Hall_values).
  destruct (render_rows_all f (fields f) 0 Hall_fields) as (rows & Hrows & Hlen).
  { intros k Hk. apply (well_formed_at_index n f k Hwf). lia. }
  exists rows. unfold render. rewrite Hrows. split; [done | lia].
Qed.

Lemma session_well_formed `{Imports} props events : forall n st,
  Forall (fun we => keeps_rows (fst we)) events ->
  well_formed n (form st) ->
  well_formed n (form (session props events st)).
Proof.
  induction events as [| [world event] events IH]; intros n st Hworlds Hwf; [done |].
  apply Forall_cons in Hworlds as [Hworld Hworlds].
  cbn. apply IH; [done |]. by apply dispatch_well_formed.
Qed.

Lemma initial_form_well_formed : well_formed 1 initial_form.
Proof. repeat split; cbn; repeat constructor; by eexists. Qed.

(** X8: no event adds, removes or empties a row: in a world that keeps
    the rows of the form during a lookup, a form of [n] rows, none of them
    [undefined], is such a form again after every event, whatever the
    index and the value of the event. *)
Theorem dispatch_keeps_rows `{Imports} props world event n st :
  keeps_rows world ->
  well_formed n (form st) ->
  well_formed n (form (fst (dispatch props world event st))).
Proof. apply dispatch_well_formed. Qed.

Lemma example_world_keeps_rows : keeps_rows example_world.
Proof. intros n f Hwf. by split. Qed.

Lemma dispatch_keeps_rows_witness :
  well_formed 1
    (form (fst (dispatch (H := example_imports) example_props example_world
                  (tokenId_onBlur 0 "0.0.1234") initial_state))).
Proof.
  apply (@dispatch_keeps_rows example_imports example_props example_world
           (tokenId_onBlur 0 "0.0.1234") 1 initial_state).
  - exact example_world_keeps_rows.
  - exact initial_form_well_formed.
Defined.

(** X9: a form with all its rows renders without throwing, one list of
    elements per row, followed by the foot of the form. *)
Theorem well_formed_form_renders props n f :
  well_formed n f ->
  exists rows, render props f = Normal (rows, render_submit props) /\ length rows = n.
Proof. apply render_all. Qed.

Lemma well_formed_form_renders_witness :
  exists rows,
    render example_props example_nft_form = Normal (rows, render_submit example_props)
    /\ length rows = 1.
Proof.
  apply (well_formed_form_renders example_props 1 example_nft_form).
  repeat split; cbn; repeat constructor; by eexists.
Defined.

(** X10: the form has one row for good: started from the default values,
    after any sequence of events, in worlds that keep the rows during a
    lookup, the form still has exactly one row in [fields] and in the
    values, and it renders that one row without throwing. *)
Theorem session_has_one_row `{Imports} props events :
  Forall (fun we => keeps_rows (fst we)) events ->
  let f := form (session props events initial_state) in
  well_formed 1 f
  /\ exists row, render props f = Normal ([row], render_submit props).
Proof.
  intros Hworlds f.
  assert (Hwf : well_formed 1 f).
  { apply session_well_formed; [done | apply initial_form_well_formed]. }
  split; [done |].
  destruct (render_all props 1 f Hwf) as (rows & Hrender & Hlen).
  destruct rows as [| row [| row' rows]]; try done. by exists row.
Qed.

Lemma session_has_one_row_witness :
  let f := form (session (H := example_imports) example_props
                   [(example_world, tokenId_onChange 0 "0.0.1234");
                    (example_world, tokenId_onBlur 0 "0.0.1234");
                    (example_world, switch_onCheckedChange 0 true);
                    (example_world, form_onSubmit)]
                   initial_state) in
  well_formed 1 f
  /\ exists row, render example_props f = Normal ([row], render_submit example_props).
Proof.
  apply (@session_has_one_row example_imports example_props
           [(example_world, tokenId_onChange 0 "0.0.1234");
            (example_world, tokenId_onBlur 0 "0.0.1234");
            (example_world, switch_onCheckedChange 0 true);
            (example_world, form_onSubmit)]).
  repeat (constructor; [exact example_world_keeps_rows |]). constructor.
Defined.

(** ** What a row shows after an event *)

(** A row with a live row renders its inputs and, when it is
    non-fungible, the panel made from the live row. *)
Lemma render_row_live f index field value :
  at_index (values f) index = Some value ->
  render_row f index field
  = Normal ([TokenIdInput index]
              ++ (if String.eqb (tokenName field) "" then [] else [TokenNameText (tokenName field)])
              ++ [MinAmountInput index]
              ++ if isNFT field
                 then [DurationPanel (isCollapsed value) (controls_of value)]
                 else []).
Proof.
  intros Hvalue. unfold render_row. rewrite Hvalue.
  destruct (isNFT field), (String.eqb (tokenName field) ""); reflexivity.
Qed.

(** X11: after a successful lookup the row shows the name of the token
    (when it has one) under the token-id input and, exactly when the token
    is ['NON_FUNGIBLE_UNIQUE'], the filter panel, visible or hidden and
    filled as the row object says when the lookup has settled (with what
    was written to it during the request). *)
Theorem successful_lookup_renders `{Imports} props world url index (formData : Ref)
    st data :
  lookup_success (network world url) = Some data ->
  let settled := settled_row world url (form st) formData in
  let f := form (fst (fetchTokenData props world url index (Some formData) st)) in
  at_index (fields f) index = Some (enriched data settled)
  /\ render_row f index (enriched data settled)
     = Normal ([TokenIdInput index]
                 ++ (if String.eqb (name data) "" then [] else [TokenNameText (name data)])
                 ++ [MinAmountInput index]
                 ++ if String.eqb (type data) "NON_FUNGIBLE_UNIQUE"
                    then [DurationPanel (isCollapsed settled) (controls_of settled)]
                    else []).
Proof.
  intros Hok settled f. subst f.
  rewrite (fetchTokenData_success props world url index formData st data Hok).
  cbn [fst form]. fold settled.
  split; [apply at_index_after_update |].
  by rewrite (render_row_live _ index _ (enriched data settled))
    by apply at_index_after_update.
Qed.

Lemma successful_lookup_renders_witness :
  let settled := settled_row example_world_typing example_url (form example_state) 0 in
  let f := form (fst (fetchTokenData (H := example_imports) example_props
                        example_world_typing example_url 0 (Some 0) example_state)) in
  at_index (fields f) 0 = Some (enriched example_nft settled)
  /\ render_row f 0 (enriched example_nft settled)
     = Normal [TokenIdInput 0; TokenNameText "Hash Monkeys"; MinAmountInput 0;
               DurationPanel false [DurationSwitch false; DatePicker (duration_string "")]].
Proof.
  apply (@successful_lookup_renders example_imports example_props example_world_typing
           example_url 0 0 example_state example_nft).
  reflexivity.
Defined.

(** X12: after a failed lookup the row shows the [wrongTokenId] entry of
    the dictionary (when the entry is not empty) under the token-id
    input, and keeps or lacks the filter panel as the row object has its
    [isNFT] flag when the lookup has settled. *)
Theorem failed_lookup_renders `{Imports} props world url index (formData : Ref)
    st error :
  lookup_failure (network world url) = Some error ->
  wrongTokenId dictionary <> "" ->
  let settled := settled_row world url (form st) formData in
  let f := form (fst (fetchTokenData props world url index (Some formData) st)) in
  at_index (fields f) index = Some (flagged settled)
  /\ render_row f index (flagged settled)
     = Normal ([TokenIdInput index; TokenNameText (wrongTokenId dictionary);
                MinAmountInput index]
                 ++ if isNFT settled
                    then [DurationPanel (isCollapsed settled) (controls_of settled)]
                    else []).
Proof.
  intros Hfail Htext settled f. subst f.
  rewrite (fetchTokenData_failure props world url index formData st error Hfail).
  cbn [fst form]. fold settled.
  split; [apply at_index_after_update |].
  rewrite (render_row_live _ index _ (flagged settled)) by apply at_index_after_update.
  cbn. by destruct (String.eqb_spec (wrongTokenId dictionary) "").
Qed.

Lemma failed_lookup_renders_witness :
  let settled := settled_row example_world_offline example_url example_nft_form 0 in
  let f := form (fst (fetchTokenData (H := example_imports) example_props
                        example_world_offline example_url 0 (Some 0)
                        {| form := example_nft_form; calls := [] |})) in
  at_index (fields f) 0 = Some (flagged (H := example_imports) settled)
  /\ render_row f 0 (flagged (H := example_imports) settled)
     = Normal [TokenIdInput 0; TokenNameText "Wrong token ID"; MinAmountInput 0;
               DurationPanel true [DurationSwitch false; DatePicker (duration_string "")]].
Proof.
  apply (@failed_lookup_renders example_imports example_props example_world_offline
           example_url 0 0 {| form := example_nft_form; calls := [] |}
           {| error_name := "TypeError"; message := "Failed to fetch" |});
    [reflexivity | discriminate].
Defined.

(** X13: the switch of a non-fungible row sets the live
    [isDurationSelect] to the new state and empties the live [duration],
    through two [setValue] calls and without touching [fields]; the row
    then shows the number input and the type select when the switch is
    on, the date picker when it is off, in both cases with an empty
    duration. *)
Theorem switch_sets_mode_and_clears_duration `{Imports} props world index checked
    field value st :
  at_index (values (form st)) index = Some value ->
  isNFT field = true ->
  let st' := fst (dispatch props world (switch_onCheckedChange index checked) st) in
  calls st' = calls st ++ [call_setValue index "isDurationSelect";
                           call_setValue index "duration"]
  /\ fields (form st') = fields (form st)
  /\ at_index (values (form st')) index
     = Some (set_duration (duration_string "") (set_isDurationSelect checked value))
  /\ exists es,
      render_row (form st') index field = Normal es
      /\ filter_controls es
         = DurationSwitch checked
           :: if checked
              then [DurationNumberInput (duration_string "");
                    DurationTypeSelect (durationType value)]
              else [DatePicker (duration_string "")].
Proof.
  intros Hvalue Hnft st'. subst st'. rewrite switch_run. cbn [fst form calls].
  assert (Hlive :
    at_index (values (written (written (form st) index (set_isDurationSelect checked))
                        index (set_duration (duration_string ""))))
      index
    = Some (set_duration (duration_string "") (set_isDurationSelect checked value))).
  { by rewrite !at_index_values_written, Hvalue. }
  split; [done |]. split; [by rewrite !fields_written |]. split; [exact Hlive |].
  eexists. split; [by apply render_row_live |].
  rewrite Hnft. unfold filter_controls, controls_of. cbn.
  destruct (String.eqb (tokenName field) ""), checked; reflexivity.
Qed.

Lemma switch_sets_mode_and_clears_duration_witness :
  let st' := fst (dispatch (H := example_imports) example_props example_world
                    (switch_onCheckedChange 0 true)
                    {| form := example_nft_form; calls := [] |}) in
  calls st' = [] ++ [call_setValue 0 "isDurationSelect"; call_setValue 0 "duration"]
  /\ fields (form st') = [Some example_nft_row]
  /\ at_index (values (form st')) 0
     = Some (set_duration (duration_string "") (set_isDurationSelect true example_nft_row))
  /\ exists es,
      render_row (form st') 0 example_nft_row = Normal es
      /\ filter_controls es
         = [DurationSwitch true; DurationNumberInput (duration_string "");
            DurationTypeSelect days].
Proof.
  apply (@switch_sets_mode_and_clears_duration example_imports example_props example_world
           0 true example_nft_row example_nft_row {| form := example_nft_form; calls := [] |});
    reflexivity.
Defined.

(** X14: emptying the token-id input of an existing row (with
    [isValidTokenId] rejecting the empty string) leaves the row, in
    [fields] and in the values, with an empty [tokenId] and an empty
    [tokenName] and its other members as they were, so the row no longer
    shows a token name or a lookup message. *)
Theorem emptying_input_removes_name `{Imports} props world index row st :
  isValidTokenId "" = false ->
  at_index (values (form st)) index = Some row ->
  let cleared := set_tokenName "" (set_tokenId "" row) in
  exists st' es,
    dispatch props world (tokenId_onChange index "") st = (st', Normal tt)
    /\ at_index (fields (form st')) index = Some cleared
    /\ at_index (values (form st')) index = Some cleared
    /\ render_row (form st') index cleared = Normal es
    /\ forall text, TokenNameText text ∉ es.
Proof.
  intros Hempty Hrow cleared.
  rewrite change_run.
  match goal with |- context [handleTokenIdChange _ _ ?s] => set (st1 := s) end.
  assert (Hlive : at_index (values (form st1)) index = Some (set_tokenId "" row)).
  { subst st1. cbn [form]. by rewrite at_index_values_written, Hrow. }
  rewrite (handleTokenIdChange_row "" index (set_tokenId "" row) st1);
    [| by rewrite Hempty | exact Hlive].
  eexists _, _. split; [reflexivity |]. cbn [form].
  split; [apply at_index_after_update |]. split; [apply at_index_after_update |].
  split.
  - by rewrite (render_row_live _ index _ cleared) by apply at_index_after_update.
  - intros text. cbn.
    destruct (isNFT row); cbn; rewrite ?not_elem_of_cons;
      repeat split; (discriminate || apply not_elem_of_nil).
Qed.

Lemma emptying_input_removes_name_witness :
  let cleared := set_tokenName "" (set_tokenId "" example_nft_row) in
  exists st' es,
    dispatch (H := example_imports) example_props example_world (tokenId_onChange 0 "")
      {| form := example_nft_form; calls := [] |} = (st', Normal tt)
    /\ at_index (fields (form st')) 0 = Some cleared
    /\ at_index (values (form st')) 0 = Some cleared
    /\ render_row (form st') 0 cleared = Normal es
    /\ forall text, TokenNameText text ∉ es.
Proof.
  apply (@emptying_input_removes_name example_imports example_props example_world 0
           example_nft_row {| form := example_nft_form; calls := [] |});
    reflexivity.
Defined.

(** ** The foot of the form *)

(** X15: while the balances are fetched the form shows the progress bar
    with the [progress] of the properties and no submit button; otherwise
    it shows the submit button, and that button is never disabled. *)
Theorem submit_button_never_disabled (props : HoldersFormProps) :
  render_submit props
  = (if isBalancesFetching props then ProgressBar (progress props) else SubmitButton false)
  /\ render_submit props <> SubmitButton true.
Proof.
  unfold render_submit. by destruct (isBalancesFetching props).
Qed.

(** ** Typing during a lookup *)



